(** * liftover_intropolis_hg38_to_hg19.py: a shallow embedding

    The script lifts splice junctions from hg38 to hg19.  It
    - rewrites every input line as a BED interval whose name carries the
      junction (the normalizer loop),
    - calls the external [liftOver] tool,
    - writes the lifted intervals, re-expressed with their hg38 key, next
      to the original lines (the merger loops),
    - calls the external [sort],
    - walks the sorted file two rows at a time and prints one line per
      junction (the merge-join loop).

    Python [str] values are [string]s, token lists are [list string], a
    text file is the list of its raw lines (each as [readline] returns it,
    terminator included), integers are [Z], and an uncaught exception is a
    value of [exn]. *)

From Stdlib Require Import Ascii String List ZArith Lia Bool Arith.
From Stdlib Require Import Decimal DecimalString DecimalZ DecimalPos.
Import ListNotations.

Local Open Scope string_scope.
Local Open Scope list_scope.

(** ** Python string primitives *)

Module PyStr.

Definition tab : ascii := "009"%char.
Definition newline : ascii := "010"%char.
Definition semicolon : ascii := ";"%char.

(** The characters [str.strip()] removes: space, \t, \n, \v, \f, \r. *)
Definition is_space (c : ascii) : bool :=
  existsb (Ascii.eqb c)
    [" "%char; "009"%char; "010"%char; "011"%char; "012"%char; "013"%char].

Definition is_empty (s : string) : bool :=
  match s with EmptyString => true | String _ _ => false end.

Fixpoint lstrip (s : string) : string :=
  match s with
  | EmptyString => EmptyString
  | String c r => if is_space c then lstrip r else s
  end.

Fixpoint rstrip (s : string) : string :=
  match s with
  | EmptyString => EmptyString
  | String c r =>
      match rstrip r with
      | EmptyString => if is_space c then EmptyString else String c EmptyString
      | r' => String c r'
      end
  end.

(** [s.strip()] *)
Definition strip (s : string) : string := rstrip (lstrip s).

(** [s.split(sep)] for a one-character separator: never the empty list. *)
Fixpoint split (sep : ascii) (s : string) : list string :=
  match s with
  | EmptyString => [EmptyString]
  | String c r =>
      if Ascii.eqb c sep then EmptyString :: split sep r
      else match split sep r with
           | [] => [String c EmptyString]
           | h :: t => String c h :: t
           end
  end.

(** [sep.join(l)] for a one-character separator. *)
Fixpoint join (sep : ascii) (l : list string) : string :=
  match l with
  | [] => EmptyString
  | x :: r =>
      match r with
      | [] => x
      | _ :: _ => x ++ String sep (join sep r)
      end
  end.

(** [l[a:b]] for [0 <= a <= b]. *)
Definition slice {A} (a b : nat) (l : list A) : list A :=
  firstn (b - a) (skipn a l).

(** [c not in s] *)
Fixpoint no_char (c : ascii) (s : string) : bool :=
  match s with
  | EmptyString => true
  | String d r => negb (Ascii.eqb d c) && no_char c r
  end.

Definition first_char_ok (s : string) : bool :=
  match s with
  | EmptyString => false
  | String c _ => negb (is_space c)
  end.

Fixpoint last_char_ok (s : string) : bool :=
  match s with
  | EmptyString => false
  | String c r =>
      match r with
      | EmptyString => negb (is_space c)
      | String _ _ => last_char_ok r
      end
  end.

(** [s.count(c)] *)
Fixpoint count_char (c : ascii) (s : string) : nat :=
  match s with
  | EmptyString => 0
  | String d r => (if Ascii.eqb d c then 1 else 0) + count_char c r
  end.

(** Every character of [s] satisfies [p]. *)
Fixpoint all_chars (p : ascii -> bool) (s : string) : bool :=
  match s with
  | EmptyString => true
  | String c r => p c && all_chars p r
  end.

Definition is_digit (c : ascii) : bool :=
  existsb (Ascii.eqb c)
    ["0"%char; "1"%char; "2"%char; "3"%char; "4"%char;
     "5"%char; "6"%char; "7"%char; "8"%char; "9"%char].

(** [a == b] on lists of strings. *)
Fixpoint tokens_eqb (a b : list string) : bool :=
  match a, b with
  | [], [] => true
  | x :: a', y :: b' => String.eqb x y && tokens_eqb a' b'
  | _, _ => false
  end.

(** [int(s)] in Python 2: surrounding blanks, an optional sign, blanks
    after the sign, then decimal digits; [None] stands for [ValueError]. *)
Definition int (s : string) : option Z :=
  match strip s with
  | EmptyString => None
  | String c r =>
      if Ascii.eqb c "+" then
        option_map Z.of_uint (NilZero.uint_of_string (lstrip r))
      else if Ascii.eqb c "-" then
        option_map (fun u => Z.opp (Z.of_uint u))
          (NilZero.uint_of_string (lstrip r))
      else option_map Z.of_uint (NilZero.uint_of_string (String c r))
  end.

(** [str(n)] for an integer. *)
Definition str (n : Z) : string := NilZero.string_of_int (Z.to_int n).

End PyStr.
Import PyStr.

(** ** Exceptions *)

Inductive exn : Set := IndexError | ValueError | IOError | CalledProcessError.

Definition result (A : Type) : Type := (exn + A)%type.

Definition ret {A} (a : A) : result A := inr a.

Definition raise {A} (e : exn) : result A := inl e.

Definition bind {A B} (m : result A) (k : A -> result B) : result B :=
  match m with
  | inl e => inl e
  | inr a => k a
  end.

Notation "x <- m ;; k" := (bind m (fun x => k))
  (at level 61, m at next level, right associativity).

(** [tokens[n]] *)
Definition index (tokens : list string) (n : nat) : result string :=
  match nth_error tokens n with
  | Some t => ret t
  | None => raise IndexError
  end.

(** [int(s)] as an expression that may raise. *)
Definition int_of (s : string) : result Z :=
  match int s with
  | Some n => ret n
  | None => raise ValueError
  end.

(** [print x] writes [x] and a line terminator. *)
Definition println (s : string) : string := s ++ String newline EmptyString.

(** ** The normalizer loop (source lines 77-87) *)

Module Normalizer.

(** The tuple [(tokens[0], str(int(tokens[1]) - 1), tokens[2], tokens[3])],
    evaluated left to right. *)
Definition bed_fields (tokens : list string)
  : result (string * string * string * string) :=
  chrom <- index tokens 0 ;;
  t1 <- index tokens 1 ;;
  n <- int_of t1 ;;
  end_ <- index tokens 2 ;;
  strand <- index tokens 3 ;;
  ret (chrom, str (n - 1), end_, strand).

(** [';'.join([str(i), chrom, start, end, strand])] *)
Definition junction_name (i : nat) (chrom start end_ strand : string) : string :=
  join semicolon [str (Z.of_nat i); chrom; start; end_; strand].

(** ['{}\t{}\t{}\tinfo_{}\t1\t{}'.format(chrom, start, end, junction_name,
    strand)] *)
Definition bed_record (i : nat) (chrom start end_ strand : string) : string :=
  join tab [chrom; start; end_;
            ("info_" ++ junction_name i chrom start end_ strand)%string;
            "1"; strand].

(** One iteration: the line written to the BED file for input line [i]. *)
Definition normalize_line (i : nat) (line : string) : result string :=
  f <- bed_fields (split tab (strip line)) ;;
  let '(chrom, start, end_, strand) := f in
  ret (println (bed_record i chrom start end_ strand)).

(** The name the iteration builds, when it gets that far. *)
Definition name_of_line (i : nat) (line : string) : result string :=
  f <- bed_fields (split tab (strip line)) ;;
  let '(chrom, start, end_, strand) := f in
  ret (junction_name i chrom start end_ strand).

(** [for i, line in enumerate(input_stream)], counting from [i]. *)
Fixpoint normalize_from (i : nat) (input_stream : list string)
  : result (list string) :=
  match input_stream with
  | [] => ret []
  | line :: rest =>
      b <- normalize_line i line ;;
      bs <- normalize_from (S i) rest ;;
      ret (b :: bs)
  end.

Definition normalizer (input_stream : list string) : result (list string) :=
  normalize_from 0 input_stream.

End Normalizer.

(** ** The merger loops (source lines 105-121) *)

Module Merger.

Definition marker : string := "FAKE".

(** One iteration over the lifted file: the list handed to ['\t'.join]
    for a BED line. *)
Definition lift_tokens (line : string) : result (list string) :=
  match firstn 6 (split tab (strip line)) with
  | [chrom; start; end_; name; _score; strand] =>
      match split semicolon name with
      | [_; hg38_chrom; hg38_start; hg38_end; hg38_strand] =>
          hg38_start' <- int_of hg38_start ;;
          start' <- int_of start ;;
          ret [hg38_chrom; str (hg38_start' + 1); hg38_end; hg38_strand;
               chrom; str (start' + 1); end_; strand; marker]
      | _ => raise ValueError
      end
  | _ => raise ValueError
  end.

(** The row written for a BED line. *)
Definition lift_row (line : string) : result string :=
  tokens <- lift_tokens line ;;
  ret (println (join tab tokens)).

Fixpoint lift_rows (hg19_stream : list string) : result (list string) :=
  match hg19_stream with
  | [] => ret []
  | line :: rest =>
      r <- lift_row line ;;
      rs <- lift_rows rest ;;
      ret (r :: rs)
  end.

(** The file handed to [sort]: the lift rows, then the input verbatim. *)
Definition merger (hg19_stream intropolis_stream : list string)
  : result (list string) :=
  rs <- lift_rows hg19_stream ;;
  ret (rs ++ intropolis_stream).

End Merger.

(** ** The merge-join loop (source lines 128-162) *)

Module Emitter.

(** [['NA'] * 4] *)
Definition NA4 : list string := repeat "NA" 4.

(** [f.readline()]: the next raw line, or the empty string at end of file. *)
Definition readline (f : list string) : string * list string :=
  match f with
  | [] => (EmptyString, [])
  | l :: f' => (l, f')
  end.

(** The [while True] loop; the result is what it prints, one string per
    [print].  Every iteration reads a line or breaks, so the loop needs no
    more iterations than lines remain, plus one; [None] means the iteration
    budget was too small. *)
Fixpoint loop (fuel : nat) (junction_1_tokens junction_2_tokens : list string)
    (sorted_stream : list string) : option (list string) :=
  match fuel with
  | O => None
  | S fuel' =>
      if tokens_eqb (firstn 4 junction_1_tokens) (firstn 4 junction_2_tokens)
      then
        let '(hg19_tokens, hg38_tokens) :=
          if (length junction_2_tokens <? length junction_1_tokens)%nat
          then (junction_1_tokens, junction_2_tokens)
          else (junction_2_tokens, junction_1_tokens) in
        let printed := join tab (hg38_tokens ++ slice 4 8 hg19_tokens) in
        let '(l1, s1) := readline sorted_stream in
        let junction_1_tokens := strip l1 in
        if is_empty junction_1_tokens then Some [printed]
        else
          let junction_1_tokens := split tab junction_1_tokens in
          let '(l2, s2) := readline s1 in
          let junction_2_tokens := strip l2 in
          if is_empty junction_2_tokens
          then Some [printed; join tab (junction_1_tokens ++ NA4)]
          else
            option_map (cons printed)
              (loop fuel' junction_1_tokens (split tab junction_2_tokens) s2)
      else
        let printed := join tab (junction_1_tokens ++ NA4) in
        let junction_1_tokens := junction_2_tokens in
        let '(l2, s2) := readline sorted_stream in
        let junction_2_tokens := strip l2 in
        if is_empty junction_2_tokens
        then Some [printed; join tab (junction_1_tokens ++ NA4)]
        else
          option_map (cons printed)
            (loop fuel' junction_1_tokens (split tab junction_2_tokens) s2)
  end.

(** The two reads before the loop, then the loop. *)
Definition merge_join (sorted_stream : list string) : option (list string) :=
  let '(l1, s1) := readline sorted_stream in
  let junction_1_tokens := split tab (strip l1) in
  let '(l2, s2) := readline s1 in
  let junction_2_tokens := split tab (strip l2) in
  loop (S (length s2)) junction_1_tokens junction_2_tokens s2.

End Emitter.

(** ** The script *)

Record run : Type := { stdout : list string; raised : option exn }.

Definition aborted (e : exn) : run := {| stdout := []; raised := Some e |}.

Section Script.

(** [liftOver] as a function of the BED file: its exit status and the
    lifted file, if it wrote one. *)
Variable liftover : list string -> Z * option (list string).

(** The shell command line [gzip -cd | sort | gzip]: the status it
    returns (that of the last command of the pipeline) and the file it
    leaves. *)
Variable sort_command : list string -> Z * list string.

(** The body under [if __name__ == '__main__'] after argument parsing.  The
    status [subprocess.call] returns is bound and never read;
    [subprocess.check_call] raises on a non-zero status.  [None] only if the
    merge-join loop exceeded its iteration budget. *)
Definition main (intropolis : list string) : option run :=
  match Normalizer.normalizer intropolis with
  | inl e => Some (aborted e)
  | inr temp_hg38 =>
      let '(liftover_process, temp_hg19) := liftover temp_hg38 in
      match temp_hg19 with
      | None => Some (aborted IOError)
      | Some hg19_stream =>
          match Merger.merger hg19_stream intropolis with
          | inl e => Some (aborted e)
          | inr to_sort =>
              let '(status, sorted_together) := sort_command to_sort in
              if (status =? 0)%Z then
                option_map (fun out => {| stdout := out; raised := None |})
                  (Emitter.merge_join sorted_together)
              else Some (aborted CalledProcessError)
          end
      end
  end.

End Script.

(** ** Rows of the sorted file *)

Module Rows.

(** A row is the token list of a line. *)
Abbreviation row := (list string) (only parsing).

(** The join key [tokens[:4]]. *)
Definition key (r : row) : list string := firstn 4 r.

(** The sort key: the first three fields. *)
Definition key3 (r : row) : list string := firstn 3 r.

(** The raw line of a row. *)
Definition line_of (r : row) : string := println (join tab r).

Definition lines_of (rows : list row) : list string := map line_of rows.

(** Tokens that survive [strip().split('\t')]: no tab inside a token, the
    line neither starts nor ends with a blank. *)
Definition clean_row (r : row) : bool :=
  forallb (no_char tab) r
  && first_char_ok (hd EmptyString r)
  && last_char_ok (last r EmptyString).

Definition is_origin (r : row) : bool := (length r =? 8)%nat.

Definition is_lift (r : row) : bool := (length r =? 9)%nat.

(** Rows with equal keys are contiguous in [ks]. *)
Fixpoint drop_eq (k : list string) (ks : list (list string)) :=
  match ks with
  | [] => []
  | k' :: rest => if tokens_eqb k k' then drop_eq k rest else ks
  end.

Fixpoint contiguous (ks : list (list string)) : bool :=
  match ks with
  | [] => true
  | k :: rest =>
      negb (existsb (tokens_eqb k) (drop_eq k rest)) && contiguous rest
  end.

(** A well-formed sorted stream: origin rows (8 fields) with pairwise
    distinct keys, at most one lift row (9 fields) per key and only for a
    key that has an origin row, and rows of equal key adjacent. *)
Record stream_ok (rows : list row) : Prop := {
  rows_shape : Forall (fun r => clean_row r = true
                               /\ (is_origin r = true \/ is_lift r = true)) rows;
  origin_keys : NoDup (map key (filter is_origin rows));
  lift_keys : NoDup (map key (filter is_lift rows));
  lift_has_origin :
    forall l, In l rows -> is_lift l = true ->
      exists o, In o rows /\ is_origin o = true /\ key o = key l;
  keys_adjacent : contiguous (map key rows) = true
}.

(** A sorted stream in which a lift row may lack its origin row: rows of
    eight or nine fields, origin rows with pairwise distinct keys, lift
    rows with pairwise distinct keys, rows of equal key adjacent. *)
Definition rows_ok (rows : list row) : Prop :=
  Forall (fun r => clean_row r = true
                   /\ (is_origin r = true \/ is_lift r = true)) rows
  /\ NoDup (map key (filter is_origin rows))
  /\ NoDup (map key (filter is_lift rows))
  /\ contiguous (map key rows) = true.

(** What one pass over adjacent rows prints, as token lists: the reference
    the loop is compared with. *)
Definition paired (a b : row) : row :=
  if (length b <? length a)%nat then b ++ slice 4 8 a else a ++ slice 4 8 b.

Fixpoint pair_adjacent (rows : list row) : list row :=
  match rows with
  | [] => []
  | a :: tl =>
      match tl with
      | [] => [a ++ Emitter.NA4]
      | b :: rest =>
          if tokens_eqb (key a) (key b)
          then paired a b :: pair_adjacent rest
          else (a ++ Emitter.NA4) :: pair_adjacent tl
      end
  end.

(** The four fields appended to origin row [o]: fields 5-8 of the lift row
    with its key, or NA four times. *)
Definition mapped_fields (rows : list row) (o : row) : list string :=
  match find (fun l => is_lift l && tokens_eqb (key l) (key o)) rows with
  | Some l => slice 4 8 l
  | None => Emitter.NA4
  end.

(** What the loop prints beyond the pass when fewer than two rows were
    there for the two reads before it. *)
Definition stray_lines (rows : list row) : list string :=
  match rows with
  | [] => [EmptyString]
  | [_] => [join tab (EmptyString :: Emitter.NA4)]
  | _ :: _ :: _ => []
  end.

(** No row shares its key with the row after it. *)
Fixpoint adjacent_keys_differ (rows : list row) : bool :=
  match rows with
  | [] => true
  | a :: tl =>
      match tl with
      | [] => true
      | b :: _ => negb (tokens_eqb (key a) (key b)) && adjacent_keys_differ tl
      end
  end.

(** Number of printed lines whose first four fields are [k]. *)
Definition count_key (k : list string) (out : list string) : nat :=
  length (filter (fun line => tokens_eqb (key (split tab line)) k) out).

End Rows.
Import Rows.

(** ** Sample rows *)

Module Sample.

(** The junction of the scenario, its lift row, the same junction on the
    other strand, and a junction elsewhere. *)
Definition origin_plus : row := ["chr1"; "100"; "200"; "+"; "GT"; "AG"; "0,1"; "5,10"].
Definition lift_plus : row :=
  ["chr1"; "100"; "200"; "+"; "chr1"; "50"; "150"; "+"; "FAKE"].
Definition origin_minus : row := ["chr1"; "100"; "200"; "-"; "CT"; "AC"; "2"; "7"].
Definition lift_minus : row :=
  ["chr1"; "100"; "200"; "-"; "chr1"; "50"; "150"; "-"; "FAKE"].
Definition origin_other : row := ["chr2"; "7"; "9"; "-"; "GT"; "AG"; "3"; "1"].

(** A sorted stream: a lift row before its origin row, then a junction
    that was not lifted. *)
Definition sorted_rows : list row := [lift_plus; origin_plus; origin_other].

(** A stream sorted on the first three fields only. *)
Definition interleaved_rows : list row :=
  [origin_plus; origin_minus; lift_plus; lift_minus].

Definition blank_line : string := String newline EmptyString.

(** An input line whose end coordinate is not a number. *)
Definition bad_end_row : row := ["chr1"; "100"; "2x0"; "+"; "GT"; "AG"; "0,1"; "5,10"].

(** A [liftOver] that writes an empty file and exits with [status]. *)
Definition failing_liftover (status : Z) (bed : list string)
  : Z * option (list string) := (status, Some []).

(** A [sort] that succeeds on a file already in order. *)
Definition sort_in_order (f : list string) : Z * list string := (0%Z, f).

(** What [liftOver] returns for the BED record of [origin_plus] read as
    line 0, lifted to chr1:49-150. *)
Definition lifted_record : row :=
  ["chr1"; "49"; "150"; "info_0;chr1;99;200;+"; "1"; "+"].

(** The junction of [origin_plus] once more, its start written 0100, and
    the two records [liftOver] returns when that line is read as line 0
    and [origin_plus] as line 1. *)
Definition origin_padded : row :=
  ["chr1"; "0100"; "200"; "+"; "CT"; "AC"; "2"; "7"].
Definition lifted_record_1 : row :=
  ["chr1"; "49"; "150"; "info_1;chr1;99;200;+"; "1"; "+"].
Definition padded_input : list row := [origin_padded; origin_plus].
Definition padded_lifted : list row := [lifted_record; lifted_record_1].

(** The four rows of [padded_input] and its two lift rows in byte order,
    which is the order [sort] falls back on when its keys tie. *)
Definition padded_sorted : list row :=
  [origin_padded; origin_plus; lift_plus; lift_plus].

(** A row with five fields. *)
Definition short_row : row := ["chr3"; "5"; "6"; "+"; "GT"].

(** A lift row whose origin row is missing, a short row, an origin row. *)
Definition desynchronized_rows : list row := [lift_plus; short_row; origin_other].

End Sample.

Example split_empty : split tab EmptyString = [EmptyString].
Proof. reflexivity. Qed.

Example split_trailing : split semicolon "a;b;" = ["a"; "b"; EmptyString].
Proof. reflexivity. Qed.

Example strip_blank : strip (String " " (String newline EmptyString)) = EmptyString.
Proof. reflexivity. Qed.

Example strip_inner : strip "  a b  " = "a b".
Proof. reflexivity. Qed.

Example int_ok :
  int " +0042 " = Some 42%Z /\ int "-7" = Some (-7)%Z /\ int "- 5" = Some (-5)%Z.
Proof. repeat split; reflexivity. Qed.

Example int_bad :
  int "12a" = None /\ int EmptyString = None /\ int "+-5" = None
  /\ int "1 2" = None /\ int "-" = None.
Proof. repeat split; reflexivity. Qed.

Example str_ok : str 0 = "0" /\ str 99 = "99" /\ str (-5) = "-5".
Proof. repeat split; reflexivity. Qed.
(** ** Facts about the string primitives *)

Section StringFacts.

Lemma tokens_eqb_eq (a b : list string) : tokens_eqb a b = true <-> a = b.
Proof.
  revert b; induction a as [|x a IH]; intros [|y b]; simpl;
    try (split; (discriminate || reflexivity)).
  rewrite andb_true_iff, String.eqb_eq, IH.
  split; [intros [-> ->]; reflexivity | intros [= -> ->]; auto].
Qed.

Lemma tokens_eqb_refl (a : list string) : tokens_eqb a a = true.
Proof. apply tokens_eqb_eq; reflexivity. Qed.

Lemma tokens_eqb_neq (a b : list string) : tokens_eqb a b = false <-> a <> b.
Proof.
  rewrite <- tokens_eqb_eq. destruct (tokens_eqb a b); split; congruence.
Qed.

Lemma split_not_nil sep s : split sep s <> [].
Proof.
  destruct s as [|c r]; simpl; [discriminate|].
  destruct (Ascii.eqb c sep); [discriminate|].
  destruct (split sep r); discriminate.
Qed.

Lemma split_no_sep sep t : no_char sep t = true -> split sep t = [t].
Proof.
  induction t as [|c t IH]; simpl; [reflexivity|].
  rewrite andb_true_iff, negb_true_iff. intros [Hc Ht].
  rewrite Hc, (IH Ht). reflexivity.
Qed.

Lemma split_app sep t s :
  no_char sep t = true ->
  split sep (t ++ String sep s) = t :: split sep s.
Proof.
  induction t as [|c t IH]; simpl.
  - rewrite Ascii.eqb_refl. reflexivity.
  - rewrite andb_true_iff, negb_true_iff. intros [Hc Ht].
    rewrite Hc, (IH Ht). reflexivity.
Qed.

Lemma split_join sep l :
  l <> [] -> forallb (no_char sep) l = true -> split sep (join sep l) = l.
Proof.
  induction l as [|x l IH]; [congruence|]. intros _. simpl forallb.
  rewrite andb_true_iff. intros [Hx Hl].
  destruct l as [|y l].
  - simpl. apply split_no_sep; assumption.
  - change (join sep (x :: y :: l))
      with (x ++ String sep (join sep (y :: l)))%string.
    rewrite split_app by assumption.
    rewrite IH; [reflexivity | discriminate | assumption].
Qed.

Lemma join_inj sep l l' :
  l <> [] -> l' <> [] ->
  forallb (no_char sep) l = true -> forallb (no_char sep) l' = true ->
  join sep l = join sep l' -> l = l'.
Proof.
  intros Hl Hl' Hc Hc' E.
  rewrite <- (split_join sep l Hl Hc), <- (split_join sep l' Hl' Hc'), E.
  reflexivity.
Qed.

Lemma lstrip_first_ok s : first_char_ok s = true -> lstrip s = s.
Proof.
  destruct s as [|c s]; simpl; [discriminate|].
  rewrite negb_true_iff. intros ->. reflexivity.
Qed.

Lemma rstrip_app_space s c :
  is_space c = true -> rstrip (s ++ String c EmptyString) = rstrip s.
Proof.
  intros Hc. induction s as [|d s IH]; simpl.
  - rewrite Hc. reflexivity.
  - rewrite IH. reflexivity.
Qed.

Lemma rstrip_last_ok s : last_char_ok s = true -> rstrip s = s.
Proof.
  induction s as [|c s IH]; simpl; [discriminate|].
  destruct s as [|d s].
  - simpl. rewrite negb_true_iff. intros ->. reflexivity.
  - intros H. rewrite (IH H). reflexivity.
Qed.

Lemma first_char_ok_app s t :
  first_char_ok s = true -> first_char_ok (s ++ t) = true.
Proof. destruct s; simpl; [discriminate | auto]. Qed.

Lemma last_char_ok_app s t :
  last_char_ok t = true -> last_char_ok (s ++ t) = true.
Proof.
  intros Ht. induction s as [|c s IH]; simpl; [assumption|].
  destruct (s ++ t)%string eqn:E; [discriminate | assumption].
Qed.

Lemma first_char_ok_join sep l :
  first_char_ok (hd EmptyString l) = true ->
  first_char_ok (join sep l) = true.
Proof.
  destruct l as [|x [|y l]]; simpl; auto.
  intros H. apply (first_char_ok_app x _ H).
Qed.

Lemma last_char_ok_join sep l :
  last_char_ok (last l EmptyString) = true ->
  last_char_ok (join sep l) = true.
Proof.
  induction l as [|x l IH]; [simpl; auto|].
  destruct l as [|y l]; [simpl; auto|].
  intros H.
  change (join sep (x :: y :: l))
    with (x ++ String sep (join sep (y :: l)))%string.
  apply last_char_ok_app.
  assert (IH' := IH H).
  remember (join sep (y :: l)) as j eqn:Ej. clear Ej.
  destruct j; [discriminate | exact IH'].
Qed.

Lemma first_char_ok_not_empty s : first_char_ok s = true -> is_empty s = false.
Proof. destruct s; simpl; [discriminate | reflexivity]. Qed.

(** [strip] undoes [println] on a clean row, and [split] undoes [join]. *)
Lemma clean_row_parse (r : row) :
  clean_row r = true ->
  strip (line_of r) = join tab r
  /\ is_empty (join tab r) = false
  /\ split tab (join tab r) = r.
Proof.
  unfold clean_row. rewrite !andb_true_iff. intros [[Ht Hf] Hl].
  assert (Hj := first_char_ok_join tab r Hf).
  repeat split.
  - unfold strip, line_of, println.
    rewrite lstrip_first_ok by (apply first_char_ok_app; exact Hj).
    rewrite rstrip_app_space by reflexivity.
    apply rstrip_last_ok, last_char_ok_join, Hl.
  - apply first_char_ok_not_empty, Hj.
  - apply split_join; [|assumption].
    intros ->. discriminate.
Qed.

End StringFacts.

(** ** The loop against the one-pass reference *)

Section LoopFacts.

Import Emitter.

Lemma readline_lines (c : row) (rest : list row) :
  readline (lines_of (c :: rest)) = (line_of c, lines_of rest).
Proof. reflexivity. Qed.

Lemma length_lines_of (rows : list row) : length (lines_of rows) = length rows.
Proof. apply length_map. Qed.

Ltac parse_clean H :=
  let Hs := fresh "Hs" in
  let He := fresh "He" in
  let Hp := fresh "Hp" in
  destruct (clean_row_parse _ H) as (Hs & He & Hp);
  rewrite ?Hs, ?He, ?Hp.

(** With two clean rows in hand and clean rows left to read, the loop
    prints the reference output. *)
Lemma loop_pair_adjacent (fuel : nat) :
  forall (a b : row) (rest : list row),
    Forall (fun r => clean_row r = true) rest ->
    length rest < fuel ->
    loop fuel a b (lines_of rest)
    = Some (map (join tab) (pair_adjacent (a :: b :: rest))).
Proof.
  induction fuel as [|n IH]; intros a b rest Hrest Hlen; [lia|].
  cbn [loop pair_adjacent]. unfold key.
  destruct (tokens_eqb (firstn 4 a) (firstn 4 b)) eqn:Hk.
  - unfold paired.
    destruct (length b <? length a)%nat.
    all: destruct rest as [|c rest]; [reflexivity|].
    all: rewrite readline_lines; inversion Hrest as [|? ? Hc Hrest']; subst.
    all: parse_clean Hc.
    all: destruct rest as [|d rest]; [reflexivity|].
    all: rewrite readline_lines; inversion Hrest' as [|? ? Hd Hrest'']; subst.
    all: parse_clean Hd.
    all: rewrite IH by (auto; simpl in Hlen; lia).
    all: reflexivity.
  - destruct rest as [|c rest]; [reflexivity|].
    rewrite readline_lines. inversion Hrest as [|? ? Hc Hrest']; subst.
    parse_clean Hc.
    rewrite IH by (auto; simpl in Hlen; lia).
    reflexivity.
Qed.

(** The key of a clean row is not the key of the empty line. *)
Lemma clean_key_not_blank (a : row) :
  clean_row a = true -> tokens_eqb (firstn 4 a) (firstn 4 [EmptyString]) = false.
Proof.
  unfold clean_row. rewrite !andb_true_iff. intros [[_ Hf] _].
  destruct a as [|x [|y a]]; simpl in *; try discriminate.
  - destruct x; [discriminate | reflexivity].
  - destruct x; [discriminate | reflexivity].
Qed.

(** What the emitter prints on a stream of clean rows. *)
Lemma merge_join_lines (rows : list row) :
  Forall (fun r => clean_row r = true) rows ->
  merge_join (lines_of rows)
  = Some (map (join tab) (pair_adjacent rows) ++ stray_lines rows).
Proof.
  intros H. unfold merge_join.
  destruct rows as [|a rows]; [reflexivity|].
  rewrite readline_lines. inversion H as [|? ? Ha H']; subst.
  parse_clean Ha.
  destruct rows as [|b rows].
  - cbn [lines_of map readline length loop].
    change (split tab (strip EmptyString)) with [EmptyString].
    rewrite (clean_key_not_blank a Ha). reflexivity.
  - rewrite readline_lines. inversion H' as [|? ? Hb H'']; subst.
    parse_clean Hb.
    unfold stray_lines. rewrite app_nil_r.
    apply loop_pair_adjacent; [assumption|].
    rewrite length_lines_of. lia.
Qed.

End LoopFacts.

(** ** The reference on a well-formed stream *)

Section StreamFacts.

Import Emitter.

Lemma origin_not_lift (r : row) : is_origin r = true -> is_lift r = false.
Proof.
  unfold is_origin, is_lift. rewrite Nat.eqb_eq, Nat.eqb_neq. lia.
Qed.

Lemma lift_not_origin (r : row) : is_lift r = true -> is_origin r = false.
Proof.
  unfold is_origin, is_lift. rewrite Nat.eqb_eq, Nat.eqb_neq. lia.
Qed.

Lemma contiguous_tail k ks : contiguous (k :: ks) = true -> contiguous ks = true.
Proof. simpl. rewrite andb_true_iff. tauto. Qed.

Lemma contiguous_head_neq k k' ks :
  contiguous (k :: k' :: ks) = true -> k <> k' -> ~ In k (k' :: ks).
Proof.
  intros H Hn Hin. simpl in H.
  apply tokens_eqb_neq in Hn. rewrite Hn in H.
  rewrite andb_true_iff, negb_true_iff in H. destruct H as [H _].
  assert (E : existsb (tokens_eqb k) (k' :: ks) = true).
  { apply existsb_exists. exists k. split; [assumption | apply tokens_eqb_refl]. }
  congruence.
Qed.

Lemma find_all_false {A} (p : A -> bool) (l : list A) :
  (forall x, In x l -> p x = false) -> find p l = None.
Proof.
  induction l as [|x l IH]; intros H; simpl; [reflexivity|].
  rewrite (H x) by (left; reflexivity).
  apply IH. intros y Hy. apply H. right; assumption.
Qed.

Lemma NoDup_filter_tail (p : row -> bool) (a : row) (l : list row) :
  NoDup (map key (filter p (a :: l))) -> NoDup (map key (filter p l)).
Proof.
  simpl. destruct (p a); [|auto].
  simpl. intros H. inversion H; assumption.
Qed.

Lemma NoDup_filter_head (p : row -> bool) (a x : row) (l : list row) :
  NoDup (map key (filter p (a :: l))) ->
  p a = true -> In x l -> p x = true -> key x <> key a.
Proof.
  simpl. intros H Ha Hx Hpx E. rewrite Ha in H. simpl in H.
  inversion H as [|? ? Hnot _]; subst. apply Hnot.
  rewrite <- E. apply in_map. apply filter_In. split; assumption.
Qed.

(** A head row whose key does not come back is an origin row without a
    lift row. *)
Lemma stream_ok_single_head (a : row) (tl : list row) :
  stream_ok (a :: tl) -> ~ In (key a) (map key tl) ->
  is_origin a = true /\ stream_ok tl
  /\ mapped_fields (a :: tl) a = NA4
  /\ forall o, mapped_fields (a :: tl) o = mapped_fields tl o.
Proof.
  intros [Hshape Ho Hl Hlo Hc] Hnot.
  assert (Hfresh : forall x, In x tl -> key x <> key a).
  { intros x Hx E. apply Hnot. rewrite <- E. apply in_map; assumption. }
  assert (Ha : is_origin a = true).
  { inversion Hshape as [|? ? [_ [Ha|Ha]] _]; subst; [assumption|].
    destruct (Hlo a (or_introl eq_refl) Ha) as (o & [<-|Hin] & Hoo & Hk).
    - rewrite (lift_not_origin _ Ha) in Hoo. discriminate.
    - exfalso. apply (Hfresh o Hin Hk). }
  assert (Hal := origin_not_lift a Ha).
  repeat split.
  - assumption.
  - inversion Hshape; assumption.
  - eapply NoDup_filter_tail; eassumption.
  - eapply NoDup_filter_tail; eassumption.
  - intros l Hin Hlift.
    destruct (Hlo l (or_intror Hin) Hlift) as (o & [<-|Hino] & Hoo & Hk).
    + exfalso. apply (Hfresh l Hin). symmetry; assumption.
    + exists o. auto.
  - eapply contiguous_tail; eassumption.
  - unfold mapped_fields. rewrite find_all_false; [reflexivity|].
    intros x [<-|Hx]; [rewrite Hal; reflexivity|].
    apply andb_false_iff. right. apply tokens_eqb_neq. auto.
  - intros o. unfold mapped_fields. simpl. rewrite Hal. reflexivity.
Qed.

(** Two head rows with one key are an origin row and its lift row, in
    either order, and the key does not come back. *)
Lemma stream_ok_pair_head (a b : row) (rest : list row) :
  stream_ok (a :: b :: rest) -> key a = key b ->
  stream_ok rest
  /\ (forall x, In x rest -> key x <> key a)
  /\ ((is_origin a = true /\ is_lift b = true)
      \/ (is_lift a = true /\ is_origin b = true)).
Proof.
  intros [Hshape Ho Hl Hlo Hc] Hk.
  inversion Hshape as [|? ? [_ Hsa] Hshape']; subst.
  inversion Hshape' as [|? ? [_ Hsb] Hshape'']; subst.
  assert (Hkinds : (is_origin a = true /\ is_lift b = true)
                   \/ (is_lift a = true /\ is_origin b = true)).
  { destruct Hsa as [Ha|Ha], Hsb as [Hb|Hb]; auto; exfalso.
    - apply (NoDup_filter_head _ _ b _ Ho Ha (or_introl eq_refl) Hb).
      symmetry; assumption.
    - apply (NoDup_filter_head _ _ b _ Hl Ha (or_introl eq_refl) Hb).
      symmetry; assumption. }
  assert (Hfresh : forall x, In x rest -> key x <> key a).
  { intros x Hx E.
    assert (Hsx : is_origin x = true \/ is_lift x = true).
    { rewrite Forall_forall in Hshape''. apply Hshape''; assumption. }
    destruct Hkinds as [[Ha Hb]|[Ha Hb]], Hsx as [Hx'|Hx'].
    - apply (NoDup_filter_head _ _ x _ Ho Ha (or_intror Hx) Hx' E).
    - apply NoDup_filter_tail in Hl.
      apply (NoDup_filter_head _ _ x _ Hl Hb Hx Hx'). congruence.
    - apply NoDup_filter_tail in Ho.
      apply (NoDup_filter_head _ _ x _ Ho Hb Hx Hx'). congruence.
    - apply (NoDup_filter_head _ _ x _ Hl Ha (or_intror Hx) Hx' E). }
  split; [|split; assumption].
  constructor.
  - assumption.
  - do 2 apply NoDup_filter_tail in Ho. assumption.
  - do 2 apply NoDup_filter_tail in Hl. assumption.
  - intros l Hin Hlift.
    destruct (Hlo l (or_intror (or_intror Hin)) Hlift)
      as (o & [<-|[<-|Hino]] & Hoo & Hko).
    + exfalso. apply (Hfresh l Hin). symmetry; assumption.
    + exfalso. apply (Hfresh l Hin). congruence.
    + exists o. auto.
  - do 2 apply contiguous_tail in Hc. assumption.
Qed.

Lemma pair_adjacent_bounded (n : nat) :
  forall rows, length rows <= n -> stream_ok rows ->
    pair_adjacent rows
    = map (fun o => o ++ mapped_fields rows o) (filter is_origin rows).
Proof.
  induction n as [|n IH]; intros rows Hlen Hok.
  { destruct rows; [reflexivity | simpl in Hlen; lia]. }
  destruct rows as [|a [|b rest]]; [reflexivity| |].
  - destruct (stream_ok_single_head a [] Hok) as (Ha & _ & Hna & _);
      [simpl; tauto|].
    simpl. rewrite Ha. simpl. rewrite Hna. reflexivity.
  - change (pair_adjacent (a :: b :: rest))
      with (if tokens_eqb (key a) (key b)
            then paired a b :: pair_adjacent rest
            else (a ++ NA4) :: pair_adjacent (b :: rest)).
    destruct (tokens_eqb (key a) (key b)) eqn:Hk.
    + apply tokens_eqb_eq in Hk.
      destruct (stream_ok_pair_head a b rest Hok Hk) as (Hrest & Hfresh & Hkinds).
      rewrite (IH rest) by (auto; simpl in Hlen; lia).
      assert (Hext : forall o : row, In o (filter is_origin rest) ->
                (fun o : row => o ++ mapped_fields rest o) o
                = (fun o : row => o ++ mapped_fields (a :: b :: rest) o) o).
      { intros o Ho. apply filter_In in Ho. destruct Ho as [Ho _].
        assert (Hoa := Hfresh o Ho).
        assert (Ea : tokens_eqb (key a) (key o) = false)
          by (apply tokens_eqb_neq; congruence).
        assert (Eb : tokens_eqb (key b) (key o) = false)
          by (apply tokens_eqb_neq; congruence).
        unfold mapped_fields. simpl find.
        rewrite Ea, Eb, !andb_false_r. reflexivity. }
      rewrite (map_ext_in _ _ _ Hext).
      destruct Hkinds as [[Ha Hb]|[Ha Hb]].
      * assert (Hal := origin_not_lift a Ha). assert (Hbo := lift_not_origin b Hb).
        simpl filter. rewrite Ha, Hbo. simpl map. f_equal.
        unfold paired, mapped_fields. simpl find.
        rewrite Hal, Hb, <- Hk, tokens_eqb_refl. simpl.
        unfold is_origin, is_lift in Ha, Hb.
        apply Nat.eqb_eq in Ha, Hb. rewrite Ha, Hb. reflexivity.
      * assert (Hao := lift_not_origin a Ha). assert (Hbl := origin_not_lift b Hb).
        simpl filter. rewrite Hao, Hb. simpl map. f_equal.
        unfold paired, mapped_fields. simpl find.
        rewrite Ha, Hk, tokens_eqb_refl. simpl.
        unfold is_origin, is_lift in Ha, Hb.
        apply Nat.eqb_eq in Ha, Hb. rewrite Ha, Hb. reflexivity.
    + apply tokens_eqb_neq in Hk.
      assert (Hnot : ~ In (key a) (map key (b :: rest))).
      { apply contiguous_head_neq; [|assumption].
        apply (keys_adjacent _ Hok). }
      destruct (stream_ok_single_head a (b :: rest) Hok Hnot)
        as (Ha & Htl & Hna & Hsame).
      rewrite (IH (b :: rest)) by (auto; simpl in Hlen |- *; lia).
      change (filter is_origin (a :: b :: rest))
        with (if is_origin a then a :: filter is_origin (b :: rest)
              else filter is_origin (b :: rest)).
      rewrite Ha. cbn [map]. rewrite Hna. f_equal.
      apply map_ext. intros o. rewrite Hsame. reflexivity.
Qed.

(** On a well-formed stream the pass prints, in stream order, each origin
    row followed by its four mapped fields. *)
Lemma pair_adjacent_stream_ok (rows : list row) :
  stream_ok rows ->
  pair_adjacent rows
  = map (fun o => o ++ mapped_fields rows o) (filter is_origin rows).
Proof. apply (pair_adjacent_bounded (length rows)). lia. Qed.

End StreamFacts.

(** ** [int] and [str] *)

Section NumberFacts.

Lemma uint_digits (d : uint) :
  all_chars is_digit (NilEmpty.string_of_uint d) = true.
Proof. induction d; simpl; auto. Qed.

Lemma all_chars_impl (p q : ascii -> bool) (s : string) :
  (forall c, p c = true -> q c = true) ->
  all_chars p s = true -> all_chars q s = true.
Proof.
  intros Hpq. induction s as [|c s IH]; simpl; [auto|].
  rewrite !andb_true_iff. intros [Hc Hs]. auto.
Qed.

Lemma digit_not_space (c : ascii) :
  is_digit c = true -> negb (is_space c) = true.
Proof.
  destruct c as [[|] [|] [|] [|] [|] [|] [|] [|]];
    (discriminate || reflexivity).
Qed.

Lemma digit_not_char (c d : ascii) :
  is_digit d = false -> is_digit c = true -> negb (Ascii.eqb c d) = true.
Proof.
  intros Hd Hc. apply negb_true_iff, Ascii.eqb_neq. intros ->. congruence.
Qed.

Lemma no_char_all (c : ascii) (s : string) :
  all_chars (fun d => negb (Ascii.eqb d c)) s = true -> no_char c s = true.
Proof.
  induction s as [|d s IH]; simpl; [auto|].
  rewrite !andb_true_iff. intros [Hd Hs]. auto.
Qed.

Lemma digits_no_char (c : ascii) (s : string) :
  is_digit c = false -> all_chars is_digit s = true -> no_char c s = true.
Proof.
  intros Hc Hs. apply no_char_all.
  revert Hs. apply all_chars_impl. intros d. apply digit_not_char, Hc.
Qed.

Lemma rstrip_no_space (s : string) :
  all_chars (fun c => negb (is_space c)) s = true -> rstrip s = s.
Proof.
  induction s as [|c s IH]; simpl; [auto|].
  rewrite andb_true_iff, negb_true_iff. intros [Hc Hs].
  rewrite (IH Hs), Hc. destruct s; reflexivity.
Qed.

Lemma lstrip_no_space (s : string) :
  all_chars (fun c => negb (is_space c)) s = true -> lstrip s = s.
Proof.
  destruct s as [|c s]; [reflexivity|]. simpl.
  rewrite andb_true_iff, negb_true_iff. intros [-> _]. reflexivity.
Qed.

Lemma strip_no_space (s : string) :
  all_chars (fun c => negb (is_space c)) s = true -> strip s = s.
Proof.
  intros H. unfold strip.
  rewrite (lstrip_no_space s H). apply rstrip_no_space, H.
Qed.

Lemma strip_digits (s : string) : all_chars is_digit s = true -> strip s = s.
Proof.
  intros H. apply strip_no_space. revert H.
  apply all_chars_impl, digit_not_space.
Qed.

Lemma string_of_uint_nonnil (d : uint) :
  d <> Nil -> NilZero.string_of_uint d = NilEmpty.string_of_uint d.
Proof. destruct d; congruence || reflexivity. Qed.

(** Parsing an unsigned literal gives back the number. *)
Lemma int_unsigned (d : uint) :
  d <> Nil -> int (NilZero.string_of_uint d) = Some (Z.of_uint d).
Proof.
  intros Hd. unfold int.
  rewrite (string_of_uint_nonnil d Hd).
  rewrite (strip_digits _ (uint_digits d)).
  assert (Hu := NilZero.usu d Hd). rewrite (string_of_uint_nonnil d Hd) in Hu.
  assert (Hdig := uint_digits d).
  destruct (NilEmpty.string_of_uint d) as [|c r] eqn:E.
  - destruct d; simpl in E; congruence.
  - simpl in Hdig. apply andb_true_iff in Hdig. destruct Hdig as [Hc _].
    assert (Hplus : Ascii.eqb c "+" = false).
    { apply negb_true_iff. apply digit_not_char; [reflexivity | assumption]. }
    assert (Hminus : Ascii.eqb c "-" = false).
    { apply negb_true_iff. apply digit_not_char; [reflexivity | assumption]. }
    rewrite Hplus, Hminus, Hu. reflexivity.
Qed.

(** [int(str(n)) == n] *)
Lemma int_str (z : Z) : int (str z) = Some z.
Proof.
  destruct z as [|p|p].
  - reflexivity.
  - unfold str. simpl Z.to_int. simpl NilZero.string_of_int.
    rewrite int_unsigned by apply DecimalPos.Unsigned.to_uint_nonnil.
    unfold Z.of_uint. rewrite DecimalPos.Unsigned.of_to. reflexivity.
  - unfold str. simpl Z.to_int. simpl NilZero.string_of_int.
    assert (Hd := DecimalPos.Unsigned.to_uint_nonnil p).
    unfold int.
    assert (Hs : all_chars (fun c => negb (is_space c))
                   (String "-" (NilZero.string_of_uint (Pos.to_uint p))) = true).
    { simpl. rewrite (string_of_uint_nonnil _ Hd).
      generalize (uint_digits (Pos.to_uint p)).
      apply all_chars_impl, digit_not_space. }
    rewrite (strip_no_space _ Hs).
    change (Ascii.eqb "-" "+") with false. change (Ascii.eqb "-" "-") with true.
    cbv iota.
    rewrite lstrip_no_space
      by (simpl in Hs; exact Hs).
    rewrite (NilZero.usu _ Hd). simpl.
    unfold Z.of_uint. rewrite DecimalPos.Unsigned.of_to. reflexivity.
Qed.

(** A printed integer holds no semicolon. *)
Lemma str_no_semicolon (z : Z) : no_char semicolon (str z) = true.
Proof.
  assert (H : forall d, no_char semicolon (NilZero.string_of_uint d) = true).
  { intros d. destruct (Decimal.uint_eq_dec d Nil) as [->|Hd]; [reflexivity|].
    rewrite (string_of_uint_nonnil d Hd).
    apply digits_no_char; [reflexivity | apply uint_digits]. }
  destruct z as [|p|p]; [reflexivity| |]; unfold str; simpl.
  - apply H.
  - apply H.
Qed.

End NumberFacts.

(** ** Termination of the loop and blank lines *)

Section LoopTermination.

Import Emitter.

Lemma strip_is_empty (l : string) :
  is_empty (strip l) = true -> strip l = EmptyString.
Proof. destruct (strip l); [reflexivity | discriminate]. Qed.

(** One iteration per remaining line, plus one, is enough. *)
Lemma loop_total (fuel : nat) :
  forall j1 j2 s, length s < fuel -> exists out, loop fuel j1 j2 s = Some out.
Proof.
  induction fuel as [|n IH]; intros j1 j2 s Hlen; [lia|].
  cbn [loop].
  destruct (tokens_eqb (firstn 4 j1) (firstn 4 j2)).
  - destruct (if (length j2 <? length j1)%nat then (j1, j2) else (j2, j1))
      as [hg19 hg38].
    destruct s as [|l1 s1]; cbn [readline]; [eexists; reflexivity|].
    destruct (is_empty (strip l1)); [eexists; reflexivity|].
    destruct s1 as [|l2 s2]; cbn [readline]; [eexists; reflexivity|].
    destruct (is_empty (strip l2)); [eexists; reflexivity|].
    destruct (IH (split tab (strip l1)) (split tab (strip l2)) s2) as [out ->];
      [simpl in Hlen; lia|].
    eexists; reflexivity.
  - destruct s as [|l2 s2]; cbn [readline]; [eexists; reflexivity|].
    destruct (is_empty (strip l2)); [eexists; reflexivity|].
    destruct (IH j2 (split tab (strip l2)) s2) as [out ->];
      [simpl in Hlen; lia|].
    eexists; reflexivity.
Qed.

(** The emitter finishes on every stream. *)
Lemma merge_join_total (s : list string) : exists out, merge_join s = Some out.
Proof.
  unfold merge_join.
  destruct (readline s) as [l1 s1]. destruct (readline s1) as [l2 s2].
  apply loop_total. lia.
Qed.

(** A larger iteration budget changes nothing. *)
Lemma loop_fuel (n : nat) :
  forall m j1 j2 s, length s < n -> length s < m ->
    loop n j1 j2 s = loop m j1 j2 s.
Proof.
  induction n as [|n IH]; intros [|m] j1 j2 s Hn Hm; try lia.
  cbn [loop].
  destruct (tokens_eqb (firstn 4 j1) (firstn 4 j2)).
  - destruct (if (length j2 <? length j1)%nat then (j1, j2) else (j2, j1))
      as [hg19 hg38].
    destruct s as [|l1 s1]; cbn [readline]; [reflexivity|].
    destruct (is_empty (strip l1)); [reflexivity|].
    destruct s1 as [|l2 s2]; cbn [readline]; [reflexivity|].
    destruct (is_empty (strip l2)); [reflexivity|].
    rewrite (IH m) by (simpl in Hn, Hm; lia). reflexivity.
  - destruct s as [|l2 s2]; cbn [readline]; [reflexivity|].
    destruct (is_empty (strip l2)); [reflexivity|].
    rewrite (IH m) by (simpl in Hn, Hm; lia). reflexivity.
Qed.

(** Inside the loop a blank line reads as the end of the file. *)
Lemma loop_blank (blank : string) (post : list string) (n : nat) :
  strip blank = EmptyString ->
  forall j1 j2 pre, length pre < n ->
    loop n j1 j2 (pre ++ blank :: post) = loop n j1 j2 pre.
Proof.
  intros Hb. induction n as [|n IH]; intros j1 j2 pre Hlen; [lia|].
  cbn [loop].
  destruct (tokens_eqb (firstn 4 j1) (firstn 4 j2)).
  - destruct (if (length j2 <? length j1)%nat then (j1, j2) else (j2, j1))
      as [hg19 hg38].
    destruct pre as [|l1 s1];
      [rewrite app_nil_l | rewrite <- app_comm_cons]; cbn [readline].
    { rewrite Hb. reflexivity. }
    destruct (is_empty (strip l1)); [reflexivity|].
    destruct s1 as [|l2 s2];
      [rewrite app_nil_l | rewrite <- app_comm_cons]; cbn [readline].
    { rewrite Hb. reflexivity. }
    destruct (is_empty (strip l2)); [reflexivity|].
    rewrite IH by (simpl in Hlen; lia). reflexivity.
  - destruct pre as [|l2 s2];
      [rewrite app_nil_l | rewrite <- app_comm_cons]; cbn [readline].
    { rewrite Hb. reflexivity. }
    destruct (is_empty (strip l2)); [reflexivity|].
    rewrite IH by (simpl in Hlen; lia). reflexivity.
Qed.

End LoopTermination.

(** ** What the emitter prints on a well-formed stream *)

Section OutputFacts.

Import Emitter.

Lemma stream_ok_clean (rows : list row) :
  stream_ok rows -> Forall (fun r => clean_row r = true) rows.
Proof.
  intros H. eapply Forall_impl; [|apply (rows_shape _ H)].
  simpl. tauto.
Qed.

Lemma clean_no_tab (r : row) :
  clean_row r = true -> forallb (no_char tab) r = true.
Proof. unfold clean_row. rewrite !andb_true_iff. tauto. Qed.

Lemma stream_output (rows : list row) :
  stream_ok rows ->
  merge_join (lines_of rows)
  = Some (map (fun o => join tab (o ++ mapped_fields rows o))
            (filter is_origin rows) ++ stray_lines rows).
Proof.
  intros H. rewrite (merge_join_lines rows (stream_ok_clean rows H)).
  rewrite (pair_adjacent_stream_ok rows H), map_map. reflexivity.
Qed.

Lemma length9 (l : row) :
  is_lift l = true ->
  l = [nth 0 l EmptyString; nth 1 l EmptyString; nth 2 l EmptyString;
       nth 3 l EmptyString; nth 4 l EmptyString; nth 5 l EmptyString;
       nth 6 l EmptyString; nth 7 l EmptyString; nth 8 l EmptyString].
Proof.
  unfold is_lift. rewrite Nat.eqb_eq. intros H.
  do 9 (destruct l as [|? l]; [discriminate|]).
  destruct l; [reflexivity | discriminate].
Qed.

Lemma slice_lift (l : row) :
  is_lift l = true ->
  slice 4 8 l = [nth 4 l EmptyString; nth 5 l EmptyString;
                 nth 6 l EmptyString; nth 7 l EmptyString].
Proof.
  intros H. rewrite (length9 l H) at 1. reflexivity.
Qed.

Lemma slice_lift_no_tab (l : row) :
  is_lift l = true -> forallb (no_char tab) l = true ->
  forallb (no_char tab) (slice 4 8 l) = true.
Proof.
  intros H. rewrite (slice_lift l H). rewrite (length9 l H) at 1.
  simpl. rewrite !andb_true_iff. tauto.
Qed.

Lemma mapped_fields_cases (rows : list row) (o : row) :
  (exists l, In l rows /\ is_lift l = true /\ key l = key o
             /\ mapped_fields rows o = slice 4 8 l)
  \/ ((forall l, In l rows -> is_lift l = true -> key l <> key o)
      /\ mapped_fields rows o = NA4).
Proof.
  unfold mapped_fields.
  destruct (find (fun l => is_lift l && tokens_eqb (key l) (key o)) rows)
    as [l|] eqn:E.
  - left. apply find_some in E. destruct E as [Hin Hp].
    apply andb_true_iff in Hp. destruct Hp as [Hl Hk].
    apply tokens_eqb_eq in Hk. exists l. auto.
  - right. split; [|reflexivity].
    intros l Hin Hl Hk.
    assert (Hf := find_none _ _ E l Hin). cbv beta in Hf.
    rewrite Hl, Hk, tokens_eqb_refl in Hf. discriminate.
Qed.

Lemma mapped_fields_shape (rows : list row) (o : row) :
  Forall (fun r => clean_row r = true) rows ->
  length (mapped_fields rows o) = 4
  /\ forallb (no_char tab) (mapped_fields rows o) = true.
Proof.
  intros Hc.
  destruct (mapped_fields_cases rows o) as [(l & Hin & Hl & _ & ->)|[_ ->]].
  - split.
    + rewrite (slice_lift l Hl). reflexivity.
    + apply slice_lift_no_tab; [assumption|].
      apply clean_no_tab. rewrite Forall_forall in Hc. auto.
  - split; reflexivity.
Qed.

Lemma NoDup_map_inj {A B} (f : A -> B) (l : list A) (x y : A) :
  NoDup (map f l) -> In x l -> In y l -> f x = f y -> x = y.
Proof.
  induction l as [|a l IH]; simpl; [tauto|].
  intros H Hx Hy E. inversion H as [|? ? Hnot Hnd]; subst.
  destruct Hx as [<-|Hx], Hy as [<-|Hy]; auto.
  - exfalso. apply Hnot. rewrite E. apply in_map; assumption.
  - exfalso. apply Hnot. rewrite <- E. apply in_map; assumption.
Qed.

(** The lift row of a key is unique, so it is the one [mapped_fields]
    finds. *)
Lemma mapped_fields_lift (rows : list row) (o l : row) :
  stream_ok rows -> In l rows -> is_lift l = true -> key l = key o ->
  mapped_fields rows o = slice 4 8 l.
Proof.
  intros H Hin Hl Hk.
  destruct (mapped_fields_cases rows o)
    as [(l' & Hin' & Hl' & Hk' & ->)|[Hno _]].
  - f_equal. apply (NoDup_map_inj key (filter is_lift rows)).
    + apply (lift_keys _ H).
    + apply filter_In; auto.
    + apply filter_In; auto.
    + congruence.
  - exfalso. apply (Hno l Hin Hl Hk).
Qed.

Lemma key_origin_app (o m : row) : is_origin o = true -> key (o ++ m) = key o.
Proof.
  unfold is_origin, key. rewrite Nat.eqb_eq. intros H.
  rewrite firstn_app, H. simpl. apply app_nil_r.
Qed.

(** Splitting a printed line gives back the origin row and the fields
    appended to it. *)
Lemma printed_fields (o m : row) :
  clean_row o = true -> forallb (no_char tab) m = true ->
  split tab (join tab (o ++ m)) = o ++ m.
Proof.
  intros Hc Hm. apply split_join.
  - destruct o; [discriminate | discriminate].
  - rewrite forallb_app, (clean_no_tab o Hc), Hm. reflexivity.
Qed.

Lemma origin_first_token (o : row) :
  clean_row o = true -> is_origin o = true ->
  exists c x rest, o = String c x :: rest /\ length rest = 7.
Proof.
  unfold clean_row, is_origin. rewrite !andb_true_iff, Nat.eqb_eq.
  intros [[_ Hf] _] Hlen.
  destruct o as [|[|c x] rest]; simpl in *; try discriminate.
  exists c, x, rest. split; [reflexivity | lia].
Qed.

(** A stray line never carries the key of an origin row. *)
Lemma stray_key (rows : list row) (o : row) (line : string) :
  clean_row o = true -> is_origin o = true ->
  In line (stray_lines rows) -> key (split tab line) <> key o.
Proof.
  intros Hc Ho Hin.
  destruct (origin_first_token o Hc Ho) as (c & x & rest & -> & Hlen).
  destruct rows as [|a [|b rows]]; simpl in Hin.
  - destruct Hin as [<-|[]]. simpl. destruct rest; discriminate.
  - destruct Hin as [<-|[]]. discriminate.
  - destruct Hin.
Qed.

End OutputFacts.

(** ** Counting printed lines by key *)

Section Counting.

Import Emitter.

Lemma count_key_app (k : list string) (a b : list string) :
  count_key k (a ++ b) = count_key k a + count_key k b.
Proof. unfold count_key. rewrite filter_app, length_app. reflexivity. Qed.

Lemma count_key_none (k : list string) (out : list string) :
  (forall line, In line out -> key (split tab line) <> k) ->
  count_key k out = 0.
Proof.
  unfold count_key. induction out as [|x out IH]; intros H; [reflexivity|].
  simpl. destruct (tokens_eqb (key (split tab x)) k) eqn:E.
  - apply tokens_eqb_eq in E. exfalso. apply (H x); simpl; auto.
  - apply IH. intros line Hin. apply H. simpl; auto.
Qed.

(** Among printed origin rows, counting lines by key is counting rows by
    key. *)
Lemma count_key_printed (rows : list row) (k : list string) (l : list row) :
  Forall (fun r => clean_row r = true) rows ->
  Forall (fun o => clean_row o = true /\ is_origin o = true) l ->
  count_key k (map (fun o => join tab (o ++ mapped_fields rows o)) l)
  = length (filter (fun o => tokens_eqb (key o) k) l).
Proof.
  intros Hrows. unfold count_key.
  induction l as [|o l IH]; intros Hl; [reflexivity|].
  inversion Hl as [|? ? [Hc Ho] Hl']; subst.
  destruct (mapped_fields_shape rows o Hrows) as [_ Hm].
  cbn [map filter].
  rewrite (printed_fields o _ Hc Hm), (key_origin_app o _ Ho).
  destruct (tokens_eqb (key o) k); cbn [length]; rewrite (IH Hl'); reflexivity.
Qed.

Lemma count_rows_absent (k : list string) (l : list row) :
  ~ In k (map key l) -> length (filter (fun o => tokens_eqb (key o) k) l) = 0.
Proof.
  induction l as [|x l IH]; intros H; [reflexivity|].
  simpl in *. destruct (tokens_eqb (key x) k) eqn:E.
  - apply tokens_eqb_eq in E. tauto.
  - apply IH. tauto.
Qed.

Lemma count_rows_NoDup (o : row) (l : list row) :
  NoDup (map key l) -> In o l ->
  length (filter (fun x => tokens_eqb (key x) (key o)) l) = 1.
Proof.
  induction l as [|x l IH]; intros Hnd Hin; [destruct Hin|].
  simpl in Hnd. inversion Hnd as [|? ? Hnot Hnd']; subst.
  simpl. destruct Hin as [->|Hin].
  - rewrite tokens_eqb_refl. simpl. f_equal.
    apply count_rows_absent; assumption.
  - destruct (tokens_eqb (key x) (key o)) eqn:E.
    + apply tokens_eqb_eq in E. exfalso. apply Hnot. rewrite E.
      apply in_map; assumption.
    + apply IH; assumption.
Qed.

Lemma origins_shape (rows : list row) :
  stream_ok rows ->
  Forall (fun o => clean_row o = true /\ is_origin o = true)
    (filter is_origin rows).
Proof.
  intros H. apply Forall_forall. intros o Ho.
  apply filter_In in Ho. destruct Ho as [Hin Ho].
  split; [|assumption].
  assert (Hc := stream_ok_clean rows H). rewrite Forall_forall in Hc. auto.
Qed.

Lemma sorted_rows_ok : stream_ok Sample.sorted_rows.
Proof.
  constructor.
  - apply Forall_forall. intros r [<-|[<-|[<-|[]]]];
      (split; [reflexivity | (left; reflexivity) || (right; reflexivity)]).
  - repeat constructor; simpl; intuition discriminate.
  - repeat constructor; simpl; intuition discriminate.
  - intros l [<-|[<-|[<-|[]]]] H; try discriminate.
    exists Sample.origin_plus. simpl. auto.
  - reflexivity.
Qed.

End Counting.

(** ** The merge-join emitter on a well-formed stream *)

(** C1, as stated, fails.  The input holds one junction twice, its start
    written 0100 and 100: the two 4-field keys differ as text.  Both lines
    are lifted, and the merger rebuilds both lift rows with the start 100.
    In the sorted stream rows of equal key are adjacent, yet two printed
    lines carry the key of the line written 100: its own, paired with one
    lift row, and the other lift row with NA. *)
Lemma spelled_twice_printed_twice :
  NoDup (map key Sample.padded_input)
  /\ Merger.merger (lines_of Sample.padded_lifted) (lines_of Sample.padded_input)
     = inr (lines_of [Sample.lift_plus; Sample.lift_plus;
                      Sample.origin_padded; Sample.origin_plus])
  /\ contiguous (map key Sample.padded_sorted) = true
  /\ main (fun _ => (0%Z, Some (lines_of Sample.padded_lifted)))
       (fun _ => (0%Z, lines_of Sample.padded_sorted))
       (lines_of Sample.padded_input)
     = Some {| stdout :=
                 [join tab (Sample.origin_padded ++ Emitter.NA4);
                  join tab (Sample.origin_plus ++ ["chr1"; "50"; "150"; "+"]);
                  join tab (Sample.lift_plus ++ Emitter.NA4)];
               raised := None |}
  /\ count_key (key Sample.origin_plus)
       [join tab (Sample.origin_padded ++ Emitter.NA4);
        join tab (Sample.origin_plus ++ ["chr1"; "50"; "150"; "+"]);
        join tab (Sample.lift_plus ++ Emitter.NA4)] = 2.
Proof.
  split; [repeat constructor; simpl; intuition discriminate|].
  repeat split; reflexivity.
Qed.

(** On a well-formed sorted stream the line printed for an origin row
    [o] is [o]'s fields followed by four fields [m]: fields 5-8 of the lift
    row with [o]'s key when there is one (the marker, field 9, is left
    out), and NA four times when there is none.  That line is printed, it
    has twelve fields, and no other printed line carries [o]'s key. *)
Lemma emitter_row_fields (rows : list row) (o : row) :
  stream_ok rows -> In o rows -> is_origin o = true ->
  exists out m,
    Emitter.merge_join (lines_of rows) = Some out
    /\ In (join tab (o ++ m)) out
    /\ split tab (join tab (o ++ m)) = o ++ m
    /\ length (o ++ m) = 12
    /\ (forall line, In line out -> key (split tab line) = key o ->
          line = join tab (o ++ m))
    /\ (forall l, In l rows -> is_lift l = true -> key l = key o ->
          m = [nth 4 l EmptyString; nth 5 l EmptyString;
               nth 6 l EmptyString; nth 7 l EmptyString])
    /\ ((forall l, In l rows -> is_lift l = true -> key l <> key o) ->
          m = ["NA"; "NA"; "NA"; "NA"]).
Proof.
  intros H Hin Ho.
  assert (Hall := stream_ok_clean rows H).
  assert (Hc : clean_row o = true) by (rewrite Forall_forall in Hall; auto).
  destruct (mapped_fields_shape rows o Hall) as [Hlen Htab].
  rewrite (stream_output rows H).
  exists (map (fun o => join tab (o ++ mapped_fields rows o))
            (filter is_origin rows) ++ stray_lines rows).
  exists (mapped_fields rows o).
  split; [reflexivity|]. split; [|split; [|split; [|split; [|split]]]].
  - apply in_or_app. left.
    apply (in_map (fun o => join tab (o ++ mapped_fields rows o))).
    apply filter_In; auto.
  - apply printed_fields; assumption.
  - rewrite length_app, Hlen. unfold is_origin in Ho.
    apply Nat.eqb_eq in Ho. lia.
  - intros line Hline Hk. apply in_app_or in Hline.
    destruct Hline as [Hline|Hline].
    + apply in_map_iff in Hline. destruct Hline as (o' & <- & Ho').
      assert (Hs := origins_shape rows H). rewrite Forall_forall in Hs.
      destruct (Hs o' Ho') as [Hc' Hor'].
      destruct (mapped_fields_shape rows o' Hall) as [_ Htab'].
      rewrite (printed_fields o' _ Hc' Htab'), (key_origin_app o' _ Hor') in Hk.
      assert (E : o' = o).
      { apply (NoDup_map_inj key (filter is_origin rows));
          [apply (origin_keys _ H) | assumption | apply filter_In; auto
          | assumption]. }
      rewrite E. reflexivity.
    + exfalso. apply (stray_key rows o line Hc Ho Hline Hk).
  - intros l Hl Hlift Hk.
    rewrite (mapped_fields_lift rows o l H Hl Hlift Hk).
    apply slice_lift; assumption.
  - intros Hno.
    destruct (mapped_fields_cases rows o) as [(l & Hl & Hlift & Hk & _)|[_ ->]].
    + exfalso. apply (Hno l Hl Hlift Hk).
    + reflexivity.
Qed.

(** The four rows of two junctions that differ in strand only are
    contiguous on (chrom, start, end) in any order, the junction keys are
    distinct, and in this order no lift row is paired: each of the four
    rows is printed with NA appended. *)
Lemma three_field_contiguity_not_enough :
  contiguous (map key3 Sample.interleaved_rows) = true
  /\ NoDup (map key (filter is_origin Sample.interleaved_rows))
  /\ Emitter.merge_join (lines_of Sample.interleaved_rows)
     = Some (map (fun r => join tab (r ++ Emitter.NA4)) Sample.interleaved_rows)
  /\ (forall out, Emitter.merge_join (lines_of Sample.interleaved_rows) = Some out ->
        ~ In (join tab (Sample.origin_plus ++ slice 4 8 Sample.lift_plus)) out).
Proof.
  split; [reflexivity|].
  split; [repeat constructor; simpl; intuition discriminate|].
  split; [reflexivity|].
  intros out E. vm_compute in E. injection E as <-.
  simpl. intuition discriminate.
Qed.

(** C6, as stated, fails, in three ways.  Contiguity on (chrom, start,
    end) does not keep a pair together: the rows of two junctions that
    differ in strand only may interleave, and then no lift row is paired.
    A lift row need not bear the key of its origin row: for a junction
    whose start is written 0100 the merger rebuilds the key with the start
    100, and the lift row is printed on its own although the stream is
    contiguous on all four fields.  And two lift rows may bear one key:
    when a junction is written with the starts 0100 and 100, the second
    lift row is printed on its own. *)
Lemma lift_rows_left_unpaired :
  (contiguous (map key3 Sample.interleaved_rows) = true
   /\ NoDup (map key (filter is_origin Sample.interleaved_rows))
   /\ Emitter.merge_join (lines_of Sample.interleaved_rows)
      = Some (map (fun r => join tab (r ++ Emitter.NA4))
                Sample.interleaved_rows))
  /\ (Merger.merger [line_of Sample.lifted_record] [line_of Sample.origin_padded]
      = inr (lines_of [Sample.lift_plus; Sample.origin_padded])
      /\ contiguous (map key [Sample.origin_padded; Sample.lift_plus]) = true
      /\ contiguous (map key3 [Sample.origin_padded; Sample.lift_plus]) = true
      /\ main (fun _ => (0%Z, Some [line_of Sample.lifted_record]))
           (fun _ => (0%Z, lines_of [Sample.origin_padded; Sample.lift_plus]))
           [line_of Sample.origin_padded]
         = Some {| stdout := [join tab (Sample.origin_padded ++ Emitter.NA4);
                              join tab (Sample.lift_plus ++ Emitter.NA4)];
                   raised := None |})
  /\ (NoDup (map key (filter is_origin Sample.padded_sorted))
      /\ contiguous (map key Sample.padded_sorted) = true
      /\ contiguous (map key3 Sample.padded_sorted) = true
      /\ Emitter.merge_join (lines_of Sample.padded_sorted)
         = Some [join tab (Sample.origin_padded ++ Emitter.NA4);
                 join tab (Sample.origin_plus ++ slice 4 8 Sample.lift_plus);
                 join tab (Sample.lift_plus ++ Emitter.NA4)]).
Proof.
  split; [|split].
  - split; [reflexivity|].
    split; [repeat constructor; simpl; intuition discriminate | reflexivity].
  - repeat split; reflexivity.
  - split; [repeat constructor; simpl; intuition discriminate|].
    repeat split; reflexivity.
Qed.

(** ** Streams the emitter was not written for *)

Section Degenerate.

Import Emitter.

Lemma pair_adjacent_unmatched (rows : list row) :
  adjacent_keys_differ rows = true ->
  pair_adjacent rows = map (fun r => r ++ NA4) rows.
Proof.
  induction rows as [|a tl IH]; [reflexivity|].
  destruct tl as [|b rest]; [reflexivity|].
  intros H.
  change (adjacent_keys_differ (a :: b :: rest))
    with (negb (tokens_eqb (key a) (key b)) && adjacent_keys_differ (b :: rest))
    in H.
  apply andb_true_iff in H. destruct H as [Hk Htl].
  apply negb_true_iff in Hk.
  change (pair_adjacent (a :: b :: rest))
    with (if tokens_eqb (key a) (key b)
          then paired a b :: pair_adjacent rest
          else (a ++ NA4) :: pair_adjacent (b :: rest)).
  rewrite Hk, (IH Htl). reflexivity.
Qed.

Lemma pair_adjacent_cons2 (a b : row) (rest : list row) :
  pair_adjacent (a :: b :: rest)
  = if tokens_eqb (key a) (key b)
    then paired a b :: pair_adjacent rest
    else (a ++ NA4) :: pair_adjacent (b :: rest).
Proof. reflexivity. Qed.

(** A row that shares its key with neither neighbour is printed alone. *)
Lemma pair_adjacent_isolated (n : nat) :
  forall (pre : list row) (r : row) (post : list row),
    length pre <= n ->
    (forall pre' p, pre = pre' ++ [p] -> key p <> key r) ->
    (forall q post', post = q :: post' -> key q <> key r) ->
    In (r ++ NA4) (pair_adjacent (pre ++ r :: post)).
Proof.
  induction n as [|n IH]; intros pre r post Hlen Hpre Hpost.
  - destruct pre; [|simpl in Hlen; lia].
    change ([] ++ r :: post) with (r :: post).
    destruct post as [|q post']; [left; reflexivity|].
    rewrite pair_adjacent_cons2.
    assert (Hq : tokens_eqb (key r) (key q) = false).
    { apply tokens_eqb_neq. intros E. apply (Hpost q post' eq_refl).
      symmetry; assumption. }
    rewrite Hq. left; reflexivity.
  - destruct pre as [|a [|b pre']].
    + apply (IH [] r post); [simpl; lia | assumption | assumption].
    + change ([a] ++ r :: post) with (a :: r :: post).
      rewrite pair_adjacent_cons2.
      assert (Ha : tokens_eqb (key a) (key r) = false).
      { apply tokens_eqb_neq. apply (Hpre [] a eq_refl). }
      rewrite Ha. right.
      apply (IH [] r post); [simpl; lia | | assumption].
      intros pre' p E. destruct pre'; discriminate.
    + change ((a :: b :: pre') ++ r :: post)
        with (a :: b :: (pre' ++ r :: post)).
      rewrite pair_adjacent_cons2.
      destruct (tokens_eqb (key a) (key b)).
      * right. apply (IH pre' r post); [simpl in Hlen; lia | | assumption].
        intros x p E. apply (Hpre (a :: b :: x) p). rewrite E. reflexivity.
      * right. apply (IH (b :: pre') r post);
          [simpl in Hlen |- *; lia | | assumption].
        intros x p E. apply (Hpre (a :: x) p). rewrite E. reflexivity.
Qed.

End Degenerate.

(** C3: what the code does on the streams the claim is about.  On the
    empty stream the emitter prints one empty line; on a stream of one row
    it prints that row with NA four times and then a second line, an empty
    field followed by NA four times. *)
Theorem degenerate_streams :
  Emitter.merge_join [] = Some [EmptyString]
  /\ forall r : row, clean_row r = true ->
       Emitter.merge_join [line_of r]
       = Some [join tab (r ++ Emitter.NA4);
               join tab (EmptyString :: Emitter.NA4)].
Proof.
  split; [reflexivity|].
  intros r Hr.
  apply (merge_join_lines [r]). constructor; [assumption | constructor].
Qed.

Lemma degenerate_streams_witness :
  clean_row Sample.origin_plus = true
  /\ Emitter.merge_join [line_of Sample.origin_plus]
     = Some [join tab (Sample.origin_plus ++ Emitter.NA4);
             join tab (EmptyString :: Emitter.NA4)].
Proof.
  split; [reflexivity|].
  apply (proj2 degenerate_streams Sample.origin_plus). reflexivity.
Defined.

(** C8, as amended.  The emitter has no integrity check.  It finishes on
    every stream.  In a stream of at least two rows, a row that shares its
    first four fields with neither the row before it nor the row after it
    - a lift row without its origin row, or a row of any field count - is
    printed as its own fields followed by NA four times; when no row shares
    its first four fields with the next one, that is all that is
    printed. *)
Theorem no_integrity_check :
  (forall s, exists out, Emitter.merge_join s = Some out)
  /\ (forall (pre : list row) (r : row) (post : list row),
        Forall (fun r => clean_row r = true) (pre ++ r :: post) ->
        2 <= length (pre ++ r :: post) ->
        (forall pre' p, pre = pre' ++ [p] -> key p <> key r) ->
        (forall q post', post = q :: post' -> key q <> key r) ->
        exists out,
          Emitter.merge_join (lines_of (pre ++ r :: post)) = Some out
          /\ In (join tab (r ++ Emitter.NA4)) out)
  /\ (forall rows : list row,
        Forall (fun r => clean_row r = true) rows ->
        2 <= length rows ->
        adjacent_keys_differ rows = true ->
        Emitter.merge_join (lines_of rows)
        = Some (map (fun r => join tab (r ++ Emitter.NA4)) rows)).
Proof.
  split; [exact merge_join_total|]. split.
  - intros pre r post Hc Hlen Hpre Hpost.
    rewrite (merge_join_lines _ Hc).
    assert (Hstray : stray_lines (pre ++ r :: post) = []).
    { destruct (pre ++ r :: post) as [|a [|b rows]];
        simpl in Hlen; (lia || reflexivity). }
    rewrite Hstray, app_nil_r. eexists. split; [reflexivity|].
    apply (in_map (join tab)).
    apply (pair_adjacent_isolated (length pre)); auto.
  - intros rows Hc Hlen Hd.
    rewrite (merge_join_lines rows Hc), (pair_adjacent_unmatched rows Hd), map_map.
    destruct rows as [|a [|b rows]]; simpl in Hlen; try lia.
    simpl stray_lines. rewrite app_nil_r. reflexivity.
Qed.

Lemma no_integrity_check_witness :
  Forall (fun r => clean_row r = true) Sample.sorted_rows
  /\ 2 <= length Sample.sorted_rows
  /\ (exists out,
        Emitter.merge_join
          (lines_of ([Sample.lift_plus; Sample.origin_plus]
                     ++ Sample.origin_other :: [])) = Some out
        /\ In (join tab (Sample.origin_other ++ Emitter.NA4)) out)
  /\ adjacent_keys_differ Sample.desynchronized_rows = true
  /\ Emitter.merge_join (lines_of Sample.desynchronized_rows)
     = Some (map (fun r => join tab (r ++ Emitter.NA4))
               Sample.desynchronized_rows).
Proof.
  assert (Hc : Forall (fun r => clean_row r = true) Sample.sorted_rows)
    by (repeat constructor).
  assert (Hd : Forall (fun r => clean_row r = true) Sample.desynchronized_rows)
    by (repeat constructor).
  split; [exact Hc|]. split; [simpl; lia|]. split.
  - apply (proj1 (proj2 no_integrity_check)
             [Sample.lift_plus; Sample.origin_plus] Sample.origin_other []).
    + exact Hc.
    + simpl; lia.
    + intros pre' p E.
      assert (Hp : p = Sample.origin_plus).
      { destruct pre' as [|x [|y pre'']]; simpl in E.
        - discriminate.
        - injection E as _ E. symmetry; exact E.
        - injection E as _ _ E. destruct pre''; discriminate. }
      rewrite Hp. discriminate.
    + intros q post' E. discriminate.
  - split; [reflexivity|].
    apply (proj2 (proj2 no_integrity_check) Sample.desynchronized_rows Hd).
    + simpl; lia.
    + reflexivity.
Defined.

(** C8, as stated, fails: a lift row without an origin row and a row of
    five fields reach the emitter, and it finishes, printing a line made
    from each of them. *)
Lemma desynchronized_stream_is_printed :
  is_lift Sample.lift_plus = true
  /\ (forall o, In o Sample.desynchronized_rows -> is_origin o = true ->
        key o <> key Sample.lift_plus)
  /\ length Sample.short_row = 5
  /\ exists out,
       Emitter.merge_join (lines_of Sample.desynchronized_rows) = Some out
       /\ In (join tab (Sample.lift_plus ++ Emitter.NA4)) out
       /\ In (join tab (Sample.short_row ++ Emitter.NA4)) out.
Proof.
  split; [reflexivity|].
  split.
  { intros o [<-|[<-|[<-|[]]]] Ho; discriminate. }
  split; [reflexivity|].
  eexists. split; [vm_compute; reflexivity|].
  simpl. auto.
Qed.

(** C10, as amended.  A line that is empty after [strip] ends the stream
    when it is read inside the loop, that is, when at least two lines come
    before it: the emitter prints what it prints on the lines before the
    blank one and nothing for the lines after it. *)
Theorem blank_line_ends_stream (pre post : list string) (blank : string) :
  2 <= length pre -> strip blank = EmptyString ->
  exists out,
    Emitter.merge_join (pre ++ blank :: post) = Some out
    /\ Emitter.merge_join pre = Some out.
Proof.
  intros Hlen Hb.
  destruct (merge_join_total pre) as [out Hout].
  exists out. split; [|assumption].
  rewrite <- Hout.
  destruct pre as [|l1 [|l2 pre]]; simpl in Hlen; try lia.
  unfold Emitter.merge_join. rewrite <- !app_comm_cons.
  cbn [Emitter.readline].
  rewrite (loop_blank blank post _ Hb) by (rewrite length_app; simpl; lia).
  apply loop_fuel; rewrite ?length_app; simpl; lia.
Qed.

Lemma blank_line_ends_stream_witness :
  2 <= length (lines_of [Sample.lift_plus; Sample.origin_plus])
  /\ strip Sample.blank_line = EmptyString
  /\ exists out,
       Emitter.merge_join
         (lines_of [Sample.lift_plus; Sample.origin_plus]
          ++ Sample.blank_line :: lines_of [Sample.origin_other]) = Some out
       /\ Emitter.merge_join (lines_of [Sample.lift_plus; Sample.origin_plus])
          = Some out.
Proof.
  split; [simpl; lia|].
  split; [reflexivity|].
  apply (blank_line_ends_stream
           (lines_of [Sample.lift_plus; Sample.origin_plus])
           (lines_of [Sample.origin_other]) Sample.blank_line).
  - simpl; lia.
  - reflexivity.
Defined.

(** C10, as stated, fails: a blank line that is one of the first two lines
    is read before the loop, where nothing tests for it; the rows after it
    are printed. *)
Lemma leading_blank_line_does_not_end_stream :
  strip Sample.blank_line = EmptyString
  /\ Emitter.merge_join
       (Sample.blank_line :: lines_of [Sample.origin_plus; Sample.origin_other])
     = Some [join tab (EmptyString :: Emitter.NA4);
             join tab (Sample.origin_plus ++ Emitter.NA4);
             join tab (Sample.origin_other ++ Emitter.NA4)].
Proof. split; reflexivity. Qed.

(** ** The normalizer and the merger *)

Section NormalizerFacts.

Import Normalizer Merger.

Lemma bed_fields_ok (chrom t1 end_ strand : string) (more : list string) (n : Z) :
  int t1 = Some n ->
  bed_fields (chrom :: t1 :: end_ :: strand :: more)
  = inr (chrom, str (n - 1), end_, strand).
Proof.
  intros H. unfold bed_fields, index, int_of. simpl. rewrite H. reflexivity.
Qed.

Lemma bed_fields_inv (tokens : list string) (chrom start end_ strand : string) :
  bed_fields tokens = inr (chrom, start, end_, strand) ->
  exists t1 n more,
    tokens = chrom :: t1 :: end_ :: strand :: more
    /\ int t1 = Some n /\ start = str (n - 1).
Proof.
  unfold bed_fields, index, int_of.
  destruct tokens as [|a [|b tl]]; simpl; try discriminate.
  destruct (int b) as [n|] eqn:Hb; simpl; [|discriminate].
  destruct tl as [|c [|d more]]; simpl; try discriminate.
  intros [= <- <- <- <-]. exists b, n, more. auto.
Qed.

(** The lines the normalizer stops on. *)
Lemma bed_fields_fails (tokens : list string) :
  (exists e, bed_fields tokens = inl e)
  <-> (length tokens < 4 \/ int (nth 1 tokens EmptyString) = None).
Proof.
  unfold bed_fields, index, int_of.
  destruct tokens as [|a [|b tl]]; simpl.
  - split; [intros _; left; lia | intros _; eexists; reflexivity].
  - split; [intros _; left; lia | intros _; eexists; reflexivity].
  - destruct (int b) as [n|] eqn:Hb; simpl.
    + destruct tl as [|c [|d more]]; simpl.
      * split; [intros _; left; lia | intros _; eexists; reflexivity].
      * split; [intros _; left; lia | intros _; eexists; reflexivity].
      * split; [intros [e He]; discriminate | intros [H|H]; [lia|discriminate]].
    + split; [intros _; right; reflexivity | intros _; eexists; reflexivity].
Qed.

Lemma normalize_line_fails (i : nat) (line : string) :
  (exists e, normalize_line i line = inl e)
  <-> (length (split tab (strip line)) < 4
       \/ int (nth 1 (split tab (strip line)) EmptyString) = None).
Proof.
  rewrite <- bed_fields_fails. unfold normalize_line.
  destruct (bed_fields (split tab (strip line))) as [e|[[[c s] e'] st]]; simpl.
  - split; intros _; eexists; reflexivity.
  - split; intros [e He]; discriminate.
Qed.

Lemma normalize_from_fails (lines : list string) :
  forall i,
    (exists e, normalize_from i lines = inl e)
    <-> Exists (fun line =>
                  length (split tab (strip line)) < 4
                  \/ int (nth 1 (split tab (strip line)) EmptyString) = None)
          lines.
Proof.
  induction lines as [|line rest IH]; intros i.
  - simpl. split; [intros [e He]; discriminate | intros H; inversion H].
  - rewrite Exists_cons, <- (normalize_line_fails i line), <- (IH (S i)).
    cbn [normalize_from]. unfold bind, ret.
    destruct (normalize_line i line) as [e|b].
    + split; [intros _; left | intros _]; eexists; reflexivity.
    + destruct (normalize_from (S i) rest) as [e|bs].
      * split; [intros _; right | intros _]; eexists; reflexivity.
      * split; [intros [e He]; discriminate|].
        intros [[e He]|[e He]]; discriminate.
Qed.

Lemma no_char_app (c : ascii) (s t : string) :
  no_char c (s ++ t) = no_char c s && no_char c t.
Proof.
  induction s as [|d s IH]; simpl; [reflexivity|].
  rewrite IH, andb_assoc. reflexivity.
Qed.

Lemma append_assoc (a b c : string) : ((a ++ b) ++ c = a ++ (b ++ c))%string.
Proof. induction a as [|x a IH]; simpl; [reflexivity | rewrite IH; reflexivity]. Qed.

(** The name written to the BED file splits back into its five parts. *)
Lemma info_name_split (i : nat) (chrom start end_ strand : string) :
  no_char semicolon chrom = true -> no_char semicolon start = true ->
  no_char semicolon end_ = true -> no_char semicolon strand = true ->
  split semicolon ("info_" ++ junction_name i chrom start end_ strand)
  = [("info_" ++ str (Z.of_nat i))%string; chrom; start; end_; strand].
Proof.
  intros Hc Hs He Hst.
  assert (E : ("info_" ++ junction_name i chrom start end_ strand)%string
              = join semicolon [("info_" ++ str (Z.of_nat i))%string;
                                chrom; start; end_; strand]).
  { unfold junction_name.
    change (join semicolon [str (Z.of_nat i); chrom; start; end_; strand])
      with (str (Z.of_nat i)
            ++ String semicolon (join semicolon [chrom; start; end_; strand]))%string.
    change (join semicolon [("info_" ++ str (Z.of_nat i))%string;
                            chrom; start; end_; strand])
      with (("info_" ++ str (Z.of_nat i))
            ++ String semicolon (join semicolon [chrom; start; end_; strand]))%string.
    rewrite append_assoc. reflexivity. }
  rewrite E. apply split_join; [discriminate|].
  cbn [forallb]. rewrite no_char_app, str_no_semicolon, Hc, Hs, He, Hst.
  reflexivity.
Qed.

Lemma split_length (sep : ascii) (s : string) :
  length (split sep s) = S (count_char sep s).
Proof.
  induction s as [|c s IH]; [reflexivity|].
  simpl. destruct (Ascii.eqb c sep); simpl.
  - rewrite IH. reflexivity.
  - destruct (split sep s); simpl in *; [discriminate | assumption].
Qed.

Lemma count_char_app (c : ascii) (s t : string) :
  count_char c (s ++ t) = count_char c s + count_char c t.
Proof.
  induction s as [|d s IH]; simpl; [reflexivity|]. rewrite IH. lia.
Qed.

Lemma count_char_zero (c : ascii) (s : string) :
  count_char c s = 0 <-> no_char c s = true.
Proof.
  induction s as [|d s IH]; simpl; [tauto|].
  rewrite andb_true_iff, <- IH.
  destruct (Ascii.eqb d c); simpl; split; (lia || intuition discriminate).
Qed.

(** A name that splits into five parts has no semicolon inside a part. *)
Lemma info_name_five_parts (i : nat) (chrom start end_ strand : string) :
  length (split semicolon
            ("info_" ++ junction_name i chrom start end_ strand)) = 5 ->
  no_char semicolon chrom = true
  /\ no_char semicolon end_ = true
  /\ no_char semicolon strand = true.
Proof.
  rewrite split_length. unfold junction_name.
  change (join semicolon [str (Z.of_nat i); chrom; start; end_; strand])
    with (str (Z.of_nat i) ++ String semicolon
            (chrom ++ String semicolon
               (start ++ String semicolon
                  (end_ ++ String semicolon strand))))%string.
  repeat (rewrite !count_char_app; cbn [count_char]).
  change (Ascii.eqb semicolon semicolon) with true.
  change (count_char semicolon "info_") with 0.
  rewrite <- !count_char_zero. cbv iota. lia.
Qed.

(** A rebuilt row has nine fields: the hg38 key, then the lifted
    chromosome, the lifted start plus one, the lifted end and strand, then
    the marker. *)
Lemma lift_tokens_shape (mapped : string) (tokens : list string) :
  lift_tokens mapped = inr tokens ->
  exists c s e name score st k,
    firstn 6 (split tab (strip mapped)) = [c; s; e; name; score; st]
    /\ int s = Some k
    /\ is_lift tokens = true
    /\ slice 4 8 tokens = [c; str (k + 1); e; st]
    /\ nth_error tokens 8 = Some marker.
Proof.
  unfold lift_tokens.
  destruct (firstn 6 (split tab (strip mapped)))
    as [|c [|s [|e [|name [|score [|st [|x l]]]]]]]; try discriminate.
  destruct (split semicolon name)
    as [|x0 [|x1 [|x2 [|x3 [|x4 [|x5 l]]]]]]; try discriminate.
  unfold int_of. destruct (int x2) as [h|]; [|discriminate].
  destruct (int s) as [k|] eqn:Hs; [|discriminate].
  cbn [bind ret]. intros [= <-].
  exists c, s, e, name, score, st, k. repeat split; assumption.
Qed.

Example lift_row_sample :
  lift_row (line_of Sample.lifted_record) = inr (line_of Sample.lift_plus).
Proof. reflexivity. Qed.

End NormalizerFacts.

(** C5, as amended.  The name the normalizer builds for input line [i] is
    the index, the chromosome, the half-open start (the 1-based start minus
    one), the end and the strand joined by semicolons; when chromosome, end
    and strand hold no semicolon, splitting the name on semicolons gives
    these five parts back. *)
Theorem junction_name_fields (i : nat) (line chrom t1 end_ strand : string)
    (more : list string) (n : Z) :
  split tab (strip line) = chrom :: t1 :: end_ :: strand :: more ->
  int t1 = Some n ->
  Normalizer.name_of_line i line
  = inr (join semicolon [str (Z.of_nat i); chrom; str (n - 1); end_; strand])
  /\ Normalizer.normalize_line i line
     = inr (println (join tab
              [chrom; str (n - 1); end_;
               ("info_" ++ join semicolon
                             [str (Z.of_nat i); chrom; str (n - 1); end_; strand])%string;
               "1"; strand]))
  /\ (no_char semicolon chrom = true -> no_char semicolon end_ = true ->
      no_char semicolon strand = true ->
      split semicolon
        (join semicolon [str (Z.of_nat i); chrom; str (n - 1); end_; strand])
      = [str (Z.of_nat i); chrom; str (n - 1); end_; strand]).
Proof.
  intros Ht Hn.
  unfold Normalizer.name_of_line, Normalizer.normalize_line.
  rewrite Ht, (bed_fields_ok chrom t1 end_ strand more n Hn).
  split; [reflexivity|]. split; [reflexivity|].
  intros Hc He Hs. apply split_join; [discriminate|].
  cbn [forallb]. rewrite !str_no_semicolon, Hc, He, Hs. reflexivity.
Qed.

Lemma junction_name_fields_witness :
  Normalizer.name_of_line 0 (line_of Sample.origin_plus)
  = inr (join semicolon [str 0; "chr1"; str (100 - 1); "200"; "+"])
  /\ Normalizer.normalize_line 0 (line_of Sample.origin_plus)
     = inr (println (join tab
              ["chr1"; str (100 - 1); "200";
               ("info_" ++ join semicolon
                             [str 0; "chr1"; str (100 - 1); "200"; "+"])%string;
               "1"; "+"]))
  /\ (no_char semicolon "chr1" = true -> no_char semicolon "200" = true ->
      no_char semicolon "+" = true ->
      split semicolon (join semicolon [str 0; "chr1"; str (100 - 1); "200"; "+"])
      = [str 0; "chr1"; str (100 - 1); "200"; "+"]).
Proof.
  apply (junction_name_fields 0 (line_of Sample.origin_plus)
           "chr1" "100" "200" "+" ["GT"; "AG"; "0,1"; "5,10"] 100%Z).
  - reflexivity.
  - reflexivity.
Defined.

(** C5, as stated, fails: for the junction chr1:100-200(+) read as line 0
    the name is 0;chr1;99;200;+, which holds 99 where the 1-based start is
    100. *)
Lemma junction_name_holds_half_open_start :
  split tab (strip (line_of Sample.origin_plus)) = Sample.origin_plus
  /\ Normalizer.name_of_line 0 (line_of Sample.origin_plus)
     = inr "0;chr1;99;200;+"
  /\ Normalizer.name_of_line 0 (line_of Sample.origin_plus)
     <> inr (join semicolon ["0"; "chr1"; "100"; "200"; "+"]).
Proof.
  split; [reflexivity|]. split; [reflexivity|].
  vm_compute. discriminate.
Qed.

(** C7.  Take an input line whose start field reads as the integer [n].
    The normalizer writes the start [n - 1] into the BED record and into
    its name.  For any lifted record that carries that name, every row the
    merger rebuilds has a second field that reads as [n] again:
    subtracting one and adding one back returns the original 1-based start.
    The merger does rebuild a row when the lifted start is an integer and
    chromosome, end and strand hold no semicolon (otherwise the name does
    not split into five parts and the merger raises). *)
Theorem start_round_trip (i : nat) (line mapped : string) (n : Z)
    (chrom start end_ strand c s e score st : string) (more : list string) :
  int (nth 1 (split tab (strip line)) EmptyString) = Some n ->
  Normalizer.bed_fields (split tab (strip line))
  = inr (chrom, start, end_, strand) ->
  split tab (strip mapped)
  = c :: s :: e
      :: ("info_" ++ Normalizer.junction_name i chrom start end_ strand)%string
      :: score :: st :: more ->
  start = str (n - 1)
  /\ (forall tokens,
        Merger.lift_tokens mapped = inr tokens ->
        exists hg38_start,
          nth_error tokens 1 = Some hg38_start /\ int hg38_start = Some n)
  /\ (forall k,
        int s = Some k ->
        no_char semicolon chrom = true ->
        no_char semicolon end_ = true ->
        no_char semicolon strand = true ->
        exists tokens, Merger.lift_tokens mapped = inr tokens).
Proof.
  intros Hn Hf Hm.
  destruct (bed_fields_inv _ _ _ _ _ Hf) as (t1 & n' & more' & Ht & Hn' & ->).
  rewrite Ht in Hn. simpl in Hn. assert (n' = n) by congruence. subst n'.
  split; [reflexivity|].
  assert (Hrun : no_char semicolon chrom = true ->
                 no_char semicolon end_ = true ->
                 no_char semicolon strand = true ->
                 Merger.lift_tokens mapped
                 = (start' <- int_of s ;;
                    ret [chrom; str (n - 1 + 1); end_; strand; c;
                         str (start' + 1); e; st; Merger.marker])).
  { intros Hc He Hst. unfold Merger.lift_tokens. rewrite Hm. cbn [firstn].
    rewrite (info_name_split i chrom (str (n - 1)) end_ strand Hc
               (str_no_semicolon _) He Hst).
    unfold int_of at 1. rewrite int_str. reflexivity. }
  split.
  - intros tokens Htok.
    assert (Hfive : length (split semicolon
                      ("info_" ++ Normalizer.junction_name i chrom
                                    (str (n - 1)) end_ strand)) = 5).
    { unfold Merger.lift_tokens in Htok. rewrite Hm in Htok.
      cbn [firstn] in Htok.
      destruct (split semicolon
                  ("info_" ++ Normalizer.junction_name i chrom
                                (str (n - 1)) end_ strand))
        as [|x0 [|x1 [|x2 [|x3 [|x4 [|x5 l]]]]]]; try discriminate.
      reflexivity. }
    destruct (info_name_five_parts _ _ _ _ _ Hfive) as (Hc & He & Hst).
    rewrite (Hrun Hc He Hst) in Htok. unfold int_of in Htok.
    destruct (int s) as [k|]; [|discriminate].
    cbn [bind ret] in Htok. injection Htok as <-.
    eexists. split; [reflexivity|].
    rewrite int_str. f_equal. lia.
  - intros k Hs Hc He Hst. rewrite (Hrun Hc He Hst).
    unfold int_of. rewrite Hs. eexists. reflexivity.
Qed.

Lemma start_round_trip_witness :
  int (nth 1 (split tab (strip (line_of Sample.origin_plus))) EmptyString)
  = Some 100%Z
  /\ "99" = str (100 - 1)
  /\ (forall tokens,
        Merger.lift_tokens (line_of Sample.lifted_record) = inr tokens ->
        exists hg38_start,
          nth_error tokens 1 = Some hg38_start
          /\ int hg38_start = Some 100%Z)
  /\ (forall k,
        int "49" = Some k ->
        no_char semicolon "chr1" = true ->
        no_char semicolon "200" = true ->
        no_char semicolon "+" = true ->
        exists tokens,
          Merger.lift_tokens (line_of Sample.lifted_record) = inr tokens).
Proof.
  split; [reflexivity|].
  apply (start_round_trip 0 (line_of Sample.origin_plus)
           (line_of Sample.lifted_record) 100
           "chr1" "99" "200" "+" "chr1" "49" "150" "1" "+" []);
    reflexivity.
Defined.

(** C9, as amended.  The normalizer fails the run exactly when some line
    has fewer than four fields or a start field that does not read as an
    integer; then the script stops with the exception and has printed
    nothing.  It tests neither that a line has eight fields nor that the
    end field is a number. *)
Theorem normalizer_rejects (lines : list string) :
  ((exists e, Normalizer.normalizer lines = inl e)
   <-> Exists (fun line =>
                 length (split tab (strip line)) < 4
                 \/ int (nth 1 (split tab (strip line)) EmptyString) = None)
         lines)
  /\ (forall liftover sort_command e,
        Normalizer.normalizer lines = inl e ->
        main liftover sort_command lines = Some (aborted e)).
Proof.
  split; [apply normalize_from_fails|].
  intros liftover sort_command e H. unfold main. rewrite H. reflexivity.
Qed.

Lemma normalizer_rejects_witness :
  Normalizer.normalizer [line_of ["chr1"; "1x0"; "200"; "+"]] = inl ValueError
  /\ main (Sample.failing_liftover 0) Sample.sort_in_order
       [line_of ["chr1"; "1x0"; "200"; "+"]]
     = Some (aborted ValueError).
Proof.
  split; [reflexivity|].
  apply (proj2 (normalizer_rejects [line_of ["chr1"; "1x0"; "200"; "+"]])).
  reflexivity.
Defined.

(** C9, as stated, fails: a line of nine fields and a line whose end field
    is not a number are both normalized. *)
Lemma malformed_lines_are_normalized :
  length (split tab (strip (line_of Sample.lift_plus))) = 9
  /\ int (nth 2 (split tab (strip (line_of Sample.bad_end_row))) EmptyString)
     = None
  /\ Normalizer.normalizer
       [line_of Sample.lift_plus; line_of Sample.bad_end_row]
     = inr [println (join tab ["chr1"; "99"; "200"; "info_0;chr1;99;200;+";
                               "1"; "+"]);
            println (join tab ["chr1"; "99"; "2x0"; "info_1;chr1;99;2x0;+";
                               "1"; "+"])].
Proof. repeat split; reflexivity. Qed.

(** ** The script as a whole *)

(** The exit status of [liftOver] does not reach the result. *)
Lemma liftover_status_unused (status : Z)
    (lifted : list string -> option (list string))
    (sort_command : list string -> Z * list string) (intropolis : list string) :
  main (fun bed => (status, lifted bed)) sort_command intropolis
  = main (fun bed => (0%Z, lifted bed)) sort_command intropolis.
Proof. unfold main. destruct (Normalizer.normalizer intropolis); reflexivity. Qed.

(** The script always comes to an end. *)
Lemma main_total (liftover : list string -> Z * option (list string))
    (sort_command : list string -> Z * list string) (intropolis : list string) :
  exists r, main liftover sort_command intropolis = Some r.
Proof.
  unfold main.
  destruct (Normalizer.normalizer intropolis) as [e|bed]; [eexists; reflexivity|].
  destruct (liftover bed) as [status [hg19|]]; [|eexists; reflexivity].
  destruct (Merger.merger hg19 intropolis) as [e|to_sort];
    [eexists; reflexivity|].
  destruct (sort_command to_sort) as [st sorted].
  destruct (st =? 0)%Z; [|eexists; reflexivity].
  destruct (merge_join_total sorted) as [out ->]. eexists; reflexivity.
Qed.

(** C4: what the code does when [liftOver] fails.  Whatever status
    [liftOver] exits with, once it has left a (here empty) output file the
    script goes on to merge, sort and print: both junctions come out with
    NA, and no exception is raised. *)
Theorem failed_liftover_goes_on (status : Z) :
  main (Sample.failing_liftover status) Sample.sort_in_order
    (lines_of [Sample.origin_plus; Sample.origin_other])
  = Some {| stdout := [join tab (Sample.origin_plus ++ Emitter.NA4);
                       join tab (Sample.origin_other ++ Emitter.NA4)];
            raised := None |}.
Proof.
  unfold Sample.failing_liftover.
  rewrite (liftover_status_unused status (fun _ => Some [])).
  reflexivity.
Qed.

(** The scenarios of the description, run through the whole script: a
    junction that is lifted and one that is not. *)
Example scenario_lifted :
  main (fun bed => (0%Z, Some [line_of Sample.lifted_record]))
    (fun f => (0%Z, f))
    (lines_of [Sample.origin_plus; Sample.origin_other])
  = Some {| stdout :=
              [join tab (Sample.origin_plus ++ ["chr1"; "50"; "150"; "+"]);
               join tab (Sample.origin_other ++ Emitter.NA4)];
            raised := None |}.
Proof. reflexivity. Qed.

Example scenario_sort_fails :
  main (fun bed => (0%Z, Some [])) (fun f => (2%Z, []))
    (lines_of [Sample.origin_plus])
  = Some (aborted CalledProcessError).
Proof. reflexivity. Qed.

(** ** More on the normalizer loop *)

Section NormalizerLoop.

Import Normalizer.

Lemma normalize_from_records (lines : list string) :
  forall i beds,
    normalize_from i lines = inr beds ->
    length beds = length lines
    /\ forall k line,
         nth_error lines k = Some line ->
         exists b, nth_error beds k = Some b
                   /\ normalize_line (i + k) line = inr b.
Proof.
  induction lines as [|l rest IH]; intros i beds H.
  - injection H as <-. split; [reflexivity|].
    intros [|k] line Hk; discriminate.
  - cbn [normalize_from] in H. unfold bind, ret in H.
    destruct (normalize_line i l) as [e|b] eqn:Hl; [discriminate|].
    destruct (normalize_from (S i) rest) as [e|bs] eqn:Hr; [discriminate|].
    injection H as <-.
    destruct (IH (S i) bs Hr) as [Hlen Hnth].
    split; [simpl; congruence|].
    intros [|k] line Hk; simpl in Hk.
    + injection Hk as <-. exists b. rewrite Nat.add_0_r. auto.
    + destruct (Hnth k line Hk) as (b' & Hb' & Hn).
      exists b'. split; [assumption|].
      rewrite <- Hn. f_equal. lia.
Qed.

Lemma normalize_from_first_failure (lines : list string) :
  forall i e,
    normalize_from i lines = inl e
    <-> exists pre line post,
          lines = pre ++ line :: post
          /\ (forall k l, nth_error pre k = Some l ->
                exists b, normalize_line (i + k) l = inr b)
          /\ normalize_line (i + length pre) line = inl e.
Proof.
  induction lines as [|l rest IH]; intros i e.
  - split; [discriminate|].
    intros (pre & line & post & H & _). destruct pre; discriminate.
  - cbn [normalize_from]. unfold bind, ret.
    destruct (normalize_line i l) as [e'|b] eqn:Hl.
    + split.
      * intros [= <-]. exists [], l, rest. split; [reflexivity|].
        split; [intros [|k] x Hx; discriminate|].
        simpl. rewrite Nat.add_0_r. assumption.
      * intros (pre & line & post & H & Hpre & Hline).
        destruct pre as [|p pre]; simpl in H; injection H as <- ->.
        -- simpl in Hline. rewrite Nat.add_0_r in Hline. congruence.
        -- destruct (Hpre 0 l eq_refl) as [b Hb].
           rewrite Nat.add_0_r in Hb. congruence.
    + destruct (normalize_from (S i) rest) as [e'|bs] eqn:Hr.
      * assert (Hrest := proj1 (IH (S i) e') Hr).
        split.
        -- intros [= <-].
           destruct Hrest as (pre & line & post & -> & Hpre & Hline).
           exists (l :: pre), line, post. split; [reflexivity|].
           split.
           ++ intros [|k] x Hx; simpl in Hx.
              ** injection Hx as <-. exists b. rewrite Nat.add_0_r. assumption.
              ** destruct (Hpre k x Hx) as [b' Hb']. exists b'.
                 rewrite <- Hb'. f_equal. lia.
           ++ rewrite <- Hline. f_equal. simpl. lia.
        -- intros (pre & line & post & H & Hpre & Hline).
           destruct pre as [|p pre]; simpl in H; injection H as <- ->.
           ++ simpl in Hline. rewrite Nat.add_0_r in Hline. congruence.
           ++ f_equal.
              assert (Hgoal : normalize_from (S i) (pre ++ line :: post) = inl e).
              { apply IH. exists pre, line, post. split; [reflexivity|].
                split.
                - intros k x Hx. destruct (Hpre (S k) x Hx) as [b' Hb'].
                  exists b'. rewrite <- Hb'. f_equal. lia.
                - rewrite <- Hline. f_equal. simpl. lia. }
              congruence.
      * split; [discriminate|].
        intros (pre & line & post & H & Hpre & Hline).
        destruct pre as [|p pre]; simpl in H; injection H as <- ->.
        -- simpl in Hline. rewrite Nat.add_0_r in Hline. congruence.
        -- assert (Hgoal : normalize_from (S i) (pre ++ line :: post) = inl e).
           { apply IH. exists pre, line, post. split; [reflexivity|].
             split.
             - intros k x Hx. destruct (Hpre (S k) x Hx) as [b' Hb'].
               exists b'. rewrite <- Hb'. f_equal. lia.
             - rewrite <- Hline. f_equal. simpl. lia. }
           congruence.
Qed.

End NormalizerLoop.

(** X1.  When the normalizer loop succeeds it has written exactly one BED
    record per input line, in input order: the record at position [k] is
    the one built from line [k] with ordinal [k]. *)
Theorem normalizer_one_record_per_line (lines beds : list string) :
  Normalizer.normalizer lines = inr beds ->
  length beds = length lines
  /\ forall k line,
       nth_error lines k = Some line ->
       exists b, nth_error beds k = Some b
                 /\ Normalizer.normalize_line k line = inr b.
Proof. apply (normalize_from_records lines 0 beds). Qed.

Lemma normalizer_one_record_per_line_witness :
  length [println (join tab ["chr1"; "99"; "200"; "info_0;chr1;99;200;+";
                             "1"; "+"]);
          println (join tab ["chr2"; "6"; "9"; "info_1;chr2;6;9;-"; "1"; "-"])]
  = length (lines_of [Sample.origin_plus; Sample.origin_other])
  /\ forall k line,
       nth_error (lines_of [Sample.origin_plus; Sample.origin_other]) k
       = Some line ->
       exists b,
         nth_error
           [println (join tab ["chr1"; "99"; "200"; "info_0;chr1;99;200;+";
                               "1"; "+"]);
            println (join tab ["chr2"; "6"; "9"; "info_1;chr2;6;9;-"; "1"; "-"])]
           k = Some b
         /\ Normalizer.normalize_line k line = inr b.
Proof.
  apply (normalizer_one_record_per_line
           (lines_of [Sample.origin_plus; Sample.origin_other])).
  reflexivity.
Defined.

(** X2.  The normalizer loop stops at the first line it cannot convert and
    raises that line's exception: it fails with [e] exactly when the input
    splits into lines that convert, a line that raises [e] at its own
    ordinal, and a remainder that is never read. *)
Theorem normalizer_first_failure (lines : list string) (e : exn) :
  Normalizer.normalizer lines = inl e
  <-> exists pre line post,
        lines = pre ++ line :: post
        /\ (forall k l, nth_error pre k = Some l ->
              exists b, Normalizer.normalize_line k l = inr b)
        /\ Normalizer.normalize_line (length pre) line = inl e.
Proof. apply (normalize_from_first_failure lines 0 e). Qed.

(** X3.  Which exception a line raises in the normalizer: [ValueError]
    exactly when it has at least two fields and the second does not read as
    an integer; [IndexError] exactly when it has fewer than two fields, or
    fewer than four and a second field that reads as an integer; never
    another exception. *)
Theorem normalize_line_exception (i : nat) (line : string) :
  let tokens := split tab (strip line) in
  (Normalizer.normalize_line i line = inl ValueError
   <-> 2 <= length tokens /\ int (nth 1 tokens EmptyString) = None)
  /\ (Normalizer.normalize_line i line = inl IndexError
      <-> length tokens < 2
          \/ (length tokens < 4 /\ int (nth 1 tokens EmptyString) <> None))
  /\ Normalizer.normalize_line i line <> inl IOError
  /\ Normalizer.normalize_line i line <> inl CalledProcessError.
Proof.
  cbv zeta. unfold Normalizer.normalize_line, Normalizer.bed_fields, index, int_of.
  destruct (split tab (strip line)) as [|a [|b tl]]; simpl.
  - repeat split; try (intros; discriminate); try (intros [H _]; lia);
      intros; (lia || auto).
  - repeat split; try (intros; discriminate); try (intros [H _]; lia);
      intros; (lia || auto).
  - destruct (int b) as [n|] eqn:Hb; simpl.
    + destruct tl as [|c [|d more]]; simpl.
      * repeat split; try (intros; discriminate); try (intros [_ H]; discriminate).
        intros _. right. split; [lia | discriminate].
      * repeat split; try (intros; discriminate); try (intros [_ H]; discriminate).
        intros _. right. split; [lia | discriminate].
      * repeat split; try (intros; discriminate); try (intros [_ H]; discriminate).
        intros [H|[H _]]; lia.
    + repeat split; try (intros; discriminate); try lia.
      intros [H|[_ H]]; [lia | congruence].
Qed.

(** ** More on the merger loops *)

Section MergerLoop.

Import Merger.

Lemma lift_tokens_only_ValueError (line : string) (e : exn) :
  lift_tokens line = inl e -> e = ValueError.
Proof.
  unfold lift_tokens.
  destruct (firstn 6 (split tab (strip line)))
    as [|c [|s [|e0 [|name [|score [|st [|x l]]]]]]];
    try (intros [= <-]; reflexivity).
  destruct (split semicolon name)
    as [|x0 [|x1 [|x2 [|x3 [|x4 [|x5 l]]]]]];
    try (intros [= <-]; reflexivity).
  unfold int_of. destruct (int x2); [|intros [= <-]; reflexivity].
  destruct (int s); [discriminate | intros [= <-]; reflexivity].
Qed.

Lemma lift_row_tokens (line r : string) :
  lift_row line = inr r <->
  exists tokens, lift_tokens line = inr tokens /\ r = println (join tab tokens).
Proof.
  unfold lift_row, bind, ret. destruct (lift_tokens line) as [e|t].
  - split; [discriminate | intros (t & H & _); discriminate].
  - split.
    + intros [= <-]. exists t. auto.
    + intros (t' & [= <-] & ->). reflexivity.
Qed.

Lemma lift_rows_records (hg19 : list string) :
  forall rows,
    lift_rows hg19 = inr rows ->
    length rows = length hg19
    /\ forall k line,
         nth_error hg19 k = Some line ->
         exists tokens,
           lift_tokens line = inr tokens
           /\ nth_error rows k = Some (println (join tab tokens)).
Proof.
  induction hg19 as [|l rest IH]; intros rows H.
  - injection H as <-. split; [reflexivity|].
    intros [|k] line Hk; discriminate.
  - cbn [lift_rows] in H. unfold bind, ret in H.
    destruct (lift_row l) as [e|r] eqn:Hl; [discriminate|].
    destruct (lift_rows rest) as [e|rs] eqn:Hr; [discriminate|].
    injection H as <-.
    destruct (IH rs eq_refl) as [Hlen Hnth].
    split; [simpl; congruence|].
    intros [|k] line Hk; simpl in Hk.
    + injection Hk as <-. apply lift_row_tokens in Hl.
      destruct Hl as (t & Ht & ->). exists t. auto.
    + apply (Hnth k line Hk).
Qed.

Lemma lift_rows_fails (hg19 : list string) :
  (exists e, lift_rows hg19 = inl e)
  <-> Exists (fun line => lift_tokens line = inl ValueError) hg19.
Proof.
  induction hg19 as [|l rest IH].
  - split; [intros [e He]; discriminate | intros H; inversion H].
  - rewrite Exists_cons, <- IH. cbn [lift_rows]. unfold bind, ret, lift_row.
    destruct (lift_tokens l) as [e|t] eqn:Hl; unfold bind, ret.
    + rewrite (lift_tokens_only_ValueError l e Hl).
      split; [intros _; left; reflexivity | intros _; eexists; reflexivity].
    + destruct (lift_rows rest) as [e|rs].
      * split; [intros _; right | intros _]; eexists; reflexivity.
      * split; [intros [e He]; discriminate|].
        intros [H|[e He]]; discriminate.
Qed.

Lemma lift_rows_only_ValueError (hg19 : list string) :
  forall e, lift_rows hg19 = inl e -> e = ValueError.
Proof.
  induction hg19 as [|l rest IH]; intros e H; [discriminate|].
  cbn [lift_rows] in H. unfold bind, ret, lift_row in H.
  destruct (lift_tokens l) as [e0|t] eqn:Hl; unfold bind, ret in H.
  - injection H as <-. apply (lift_tokens_only_ValueError l e0 Hl).
  - destruct (lift_rows rest) as [e1|rs]; [|discriminate].
    injection H as <-. apply IH. reflexivity.
Qed.

End MergerLoop.

(** X4.  When the merger succeeds, the file it hands to [sort] is one
    rebuilt row per lifted record, in the order of the lifted file,
    followed by the input lines unchanged. *)
Theorem merger_output (hg19 intropolis to_sort : list string) :
  Merger.merger hg19 intropolis = inr to_sort ->
  length to_sort = length hg19 + length intropolis
  /\ skipn (length hg19) to_sort = intropolis
  /\ forall k line,
       nth_error hg19 k = Some line ->
       exists tokens,
         Merger.lift_tokens line = inr tokens
         /\ nth_error to_sort k = Some (println (join tab tokens)).
Proof.
  unfold Merger.merger, bind, ret.
  destruct (Merger.lift_rows hg19) as [e|rows] eqn:Hr; [discriminate|].
  intros [= <-].
  destruct (lift_rows_records hg19 rows Hr) as [Hlen Hnth].
  split; [rewrite length_app; lia|].
  split.
  - rewrite <- Hlen, skipn_app, skipn_all, Nat.sub_diag. reflexivity.
  - intros k line Hk. destruct (Hnth k line Hk) as (t & Ht & Hn).
    exists t. split; [assumption|].
    rewrite nth_error_app1; [assumption|].
    apply nth_error_Some. congruence.
Qed.

Lemma merger_output_witness :
  length (lines_of [Sample.lift_plus; Sample.origin_plus; Sample.origin_other])
  = length [line_of Sample.lifted_record]
    + length (lines_of [Sample.origin_plus; Sample.origin_other])
  /\ skipn (length [line_of Sample.lifted_record])
       (lines_of [Sample.lift_plus; Sample.origin_plus; Sample.origin_other])
     = lines_of [Sample.origin_plus; Sample.origin_other]
  /\ forall k line,
       nth_error [line_of Sample.lifted_record] k = Some line ->
       exists tokens,
         Merger.lift_tokens line = inr tokens
         /\ nth_error
              (lines_of [Sample.lift_plus; Sample.origin_plus;
                         Sample.origin_other]) k
            = Some (println (join tab tokens)).
Proof.
  apply (merger_output [line_of Sample.lifted_record]
           (lines_of [Sample.origin_plus; Sample.origin_other])).
  reflexivity.
Defined.

(** X5.  The merger raises [ValueError] and nothing else, it raises it
    exactly when some lifted record cannot be rebuilt, and whether it
    raises does not depend on the input lines, which it copies without
    reading them. *)
Theorem merger_failure (hg19 intropolis : list string) :
  (forall e, Merger.merger hg19 intropolis = inl e -> e = ValueError)
  /\ (Merger.merger hg19 intropolis = inl ValueError
      <-> Exists (fun line => Merger.lift_tokens line = inl ValueError) hg19).
Proof.
  assert (Hf := lift_rows_fails hg19).
  assert (Hv := lift_rows_only_ValueError hg19).
  unfold Merger.merger, bind, ret.
  destruct (Merger.lift_rows hg19) as [e|rows].
  - rewrite (Hv e eq_refl) in *.
    split; [intros e' [= <-]; reflexivity|].
    split; [intros _; apply Hf; eexists; reflexivity | reflexivity].
  - split; [discriminate|].
    split; [discriminate|].
    intros H. destruct (proj2 Hf H) as [e He]. discriminate.
Qed.

(** X6.  A lifted record cannot be rebuilt exactly when it has fewer than
    six fields, or its name (the fourth field) does not split on
    semicolons into five parts, or the third part of the name does not
    read as an integer, or the lifted start (the second field) does not
    read as an integer.  Fields after the sixth are ignored. *)
Theorem lift_tokens_rejects (line : string) :
  let tokens := split tab (strip line) in
  let parts := split semicolon (nth 3 tokens EmptyString) in
  Merger.lift_tokens line = inl ValueError
  <-> (length tokens < 6
       \/ length parts <> 5
       \/ int (nth 2 parts EmptyString) = None
       \/ int (nth 1 tokens EmptyString) = None).
Proof.
  cbv zeta. unfold Merger.lift_tokens.
  destruct (split tab (strip line))
    as [|c [|s [|e0 [|name [|score [|st more]]]]]];
    try (simpl; split; [intros _; left; lia | reflexivity]).
  cbn [firstn nth length].
  destruct (split semicolon name)
    as [|x0 [|x1 [|x2 [|x3 [|x4 [|x5 l]]]]]];
    try (simpl; split; [intros _; right; left; lia | reflexivity]).
  cbn [nth length]. unfold int_of, bind, ret.
  destruct (int x2) as [h|].
  - destruct (int s) as [k|].
    + split; [discriminate|].
      intros [H|[H|[H|H]]]; try discriminate; exfalso; lia.
    + split; [intros _; right; right; right; reflexivity | reflexivity].
  - split; [intros _; right; right; left; reflexivity | reflexivity].
Qed.

(** X7.  The row rebuilt for a lifted record carries the lifted
    chromosome, start plus one, end and strand in fields 5-8, and its
    4-field key is the junction's chromosome, the decimal numeral of its
    start, its end and its strand.  So the rebuilt row has the same key as
    the input line exactly when the input writes its start as that numeral
    (no sign, no leading zero, no blank): only then can the merge-join
    loop pair the two. *)
Theorem lift_key_matches_origin (i : nat) (line mapped : string) (n k : Z)
    (chrom t1 end_ strand c s e score st : string) (more more' : list string) :
  split tab (strip line) = chrom :: t1 :: end_ :: strand :: more ->
  int t1 = Some n ->
  no_char semicolon chrom = true ->
  no_char semicolon end_ = true ->
  no_char semicolon strand = true ->
  split tab (strip mapped)
  = c :: s :: e
      :: ("info_" ++ Normalizer.junction_name i chrom (str (n - 1)) end_ strand)%string
      :: score :: st :: more' ->
  int s = Some k ->
  exists tokens,
    Merger.lift_tokens mapped = inr tokens
    /\ slice 4 8 tokens = [c; str (k + 1); e; st]
    /\ key tokens = [chrom; str n; end_; strand]
    /\ (key tokens = key (split tab (strip line)) <-> t1 = str n).
Proof.
  intros Hl Hn Hc He Hst Hm Hs.
  unfold Merger.lift_tokens. rewrite Hm. cbn [firstn].
  rewrite (info_name_split i chrom (str (n - 1)) end_ strand Hc
             (str_no_semicolon _) He Hst).
  unfold int_of. rewrite int_str, Hs. cbn [bind ret].
  replace (n - 1 + 1)%Z with n by lia.
  eexists. split; [reflexivity|]. split; [reflexivity|].
  split; [reflexivity|].
  rewrite Hl. unfold key. cbn [firstn].
  split; [intros [= ->]; reflexivity | intros ->; reflexivity].
Qed.

Lemma lift_key_matches_origin_witness :
  exists tokens,
    Merger.lift_tokens (line_of Sample.lifted_record) = inr tokens
    /\ slice 4 8 tokens = ["chr1"; str (49 + 1); "150"; "+"]
    /\ key tokens = ["chr1"; str 100; "200"; "+"]
    /\ (key tokens = key (split tab (strip (line_of Sample.origin_plus)))
        <-> "100" = str 100).
Proof.
  apply (lift_key_matches_origin 0 (line_of Sample.origin_plus)
           (line_of Sample.lifted_record) 100 49
           "chr1" "100" "200" "+" "chr1" "49" "150" "1" "+"
           ["GT"; "AG"; "0,1"; "5,10"] []);
    reflexivity.
Defined.

(** A start written with a leading zero: the junction is lifted, yet the
    rebuilt row (key start 100) and the input line (key start 0100) are not
    paired, and both are printed with NA. *)
Example leading_zero_start_is_not_paired :
  main (fun bed => (0%Z, Some [println (join tab
                                 ["chr1"; "49"; "150"; "info_0;chr1;99;200;+";
                                  "1"; "+"])]))
    (fun f => (0%Z, f))
    [line_of ["chr1"; "0100"; "200"; "+"; "GT"; "AG"; "0,1"; "5,10"]]
  = Some {| stdout :=
              [join tab (Sample.lift_plus ++ Emitter.NA4);
               join tab (["chr1"; "0100"; "200"; "+"; "GT"; "AG"; "0,1"; "5,10"]
                         ++ Emitter.NA4)];
            raised := None |}.
Proof. reflexivity. Qed.

(** ** More on the merge-join loop *)

Section EmitterMore.

Import Emitter.

Lemma firstn_origin_app (o m : row) :
  is_origin o = true -> firstn 8 (o ++ m) = o.
Proof.
  unfold is_origin. rewrite Nat.eqb_eq. intros H.
  rewrite firstn_app, H, Nat.sub_diag, <- H, firstn_all. simpl.
  apply app_nil_r.
Qed.

Lemma stray_lines_length (rows rows' : list row) :
  length rows = length rows' -> stray_lines rows = stray_lines rows'.
Proof.
  destruct rows as [|a [|b r]], rows' as [|a' [|b' r']];
    simpl; intros H; (discriminate || reflexivity).
Qed.

Lemma rows_split_length (rows : list row) :
  Forall (fun r => clean_row r = true
                   /\ (is_origin r = true \/ is_lift r = true)) rows ->
  length rows = length (filter is_origin rows) + length (filter is_lift rows).
Proof.
  induction 1 as [|r rows [_ [Hr|Hr]] _ IH]; [reflexivity| |]; simpl.
  - rewrite Hr, (origin_not_lift r Hr). simpl. lia.
  - rewrite Hr, (lift_not_origin r Hr). simpl. lia.
Qed.

Lemma lift_rows_NoDup (rows : list row) :
  stream_ok rows -> NoDup (filter is_lift rows).
Proof. intros H. apply (NoDup_map_inv key), (lift_keys _ H). Qed.

Lemma mapped_fields_same (rows rows' : list row) (o : row) :
  stream_ok rows -> stream_ok rows' ->
  (forall l, In l rows -> is_lift l = true -> In l rows') ->
  (forall l, In l rows' -> is_lift l = true -> In l rows) ->
  mapped_fields rows o = mapped_fields rows' o.
Proof.
  intros H H' Hto Hfrom.
  destruct (mapped_fields_cases rows o) as [(l & Hin & Hl & Hk & ->)|[Hno ->]].
  - symmetry. apply mapped_fields_lift; auto.
  - destruct (mapped_fields_cases rows' o) as [(l & Hin & Hl & Hk & _)|[_ ->]].
    + exfalso. apply (Hno l (Hfrom l Hin Hl) Hl Hk).
    + reflexivity.
Qed.

End EmitterMore.

(** X8.  On a well-formed sorted stream of at least two rows the printed
    lines are the origin rows in stream order, each extended to twelve
    fields: the first eight fields of the printed lines, read in order, are
    exactly the origin rows of the stream in order. *)
Theorem output_in_stream_order (rows : list row) :
  stream_ok rows -> 2 <= length rows ->
  exists out,
    Emitter.merge_join (lines_of rows) = Some out
    /\ map (fun line => firstn 8 (split tab line)) out = filter is_origin rows
    /\ Forall (fun line => length (split tab line) = 12) out.
Proof.
  intros H Hlen. rewrite (stream_output rows H).
  assert (Hstray : stray_lines rows = []).
  { destruct rows as [|a [|b rows]]; simpl in Hlen; (lia || reflexivity). }
  rewrite Hstray, app_nil_r. eexists. split; [reflexivity|].
  assert (Hall := stream_ok_clean rows H).
  assert (Hs := origins_shape rows H). rewrite Forall_forall in Hs.
  split.
  - rewrite map_map. rewrite <- (map_id (filter is_origin rows)) at 2.
    apply map_ext_in. intros o Ho. destruct (Hs o Ho) as [Hc Hor].
    destruct (mapped_fields_shape rows o Hall) as [_ Htab].
    rewrite (printed_fields o _ Hc Htab). apply firstn_origin_app, Hor.
  - apply Forall_forall. intros line Hline.
    apply in_map_iff in Hline. destruct Hline as (o & <- & Ho).
    destruct (Hs o Ho) as [Hc Hor].
    destruct (mapped_fields_shape rows o Hall) as [Hl4 Htab].
    rewrite (printed_fields o _ Hc Htab), length_app, Hl4.
    unfold is_origin in Hor. apply Nat.eqb_eq in Hor. lia.
Qed.

Lemma output_in_stream_order_witness :
  stream_ok Sample.sorted_rows
  /\ exists out,
       Emitter.merge_join (lines_of Sample.sorted_rows) = Some out
       /\ map (fun line => firstn 8 (split tab line)) out
          = filter is_origin Sample.sorted_rows
       /\ Forall (fun line => length (split tab line) = 12) out.
Proof.
  split; [exact sorted_rows_ok|].
  apply (output_in_stream_order Sample.sorted_rows).
  - exact sorted_rows_ok.
  - simpl; lia.
Defined.

(** X9.  What is printed for a well-formed sorted stream depends only on
    the order of its origin rows and on which lift rows it holds, not on
    where the lift rows stand: two well-formed streams with the same origin
    rows in the same order and the same lift rows print the same lines.  In
    particular it does not matter whether [sort] puts a lift row before or
    after its origin row. *)
Theorem tie_break_independent (rows rows' : list row) :
  stream_ok rows -> stream_ok rows' ->
  filter is_origin rows = filter is_origin rows' ->
  (forall l, In l rows -> is_lift l = true -> In l rows') ->
  (forall l, In l rows' -> is_lift l = true -> In l rows) ->
  Emitter.merge_join (lines_of rows) = Emitter.merge_join (lines_of rows').
Proof.
  intros H H' Ho Hto Hfrom.
  rewrite (stream_output rows H), (stream_output rows' H').
  assert (Hlen : length rows = length rows').
  { rewrite (rows_split_length rows (rows_shape _ H)).
    rewrite (rows_split_length rows' (rows_shape _ H')).
    rewrite Ho. f_equal. apply Nat.le_antisymm.
    - apply NoDup_incl_length; [apply lift_rows_NoDup, H|].
      intros l Hl. apply filter_In in Hl. destruct Hl as [Hin Hl].
      apply filter_In. auto.
    - apply NoDup_incl_length; [apply lift_rows_NoDup, H'|].
      intros l Hl. apply filter_In in Hl. destruct Hl as [Hin Hl].
      apply filter_In. auto. }
  rewrite (stray_lines_length rows rows' Hlen), <- Ho.
  do 2 f_equal. apply map_ext. intros o.
  rewrite (mapped_fields_same rows rows' o H H' Hto Hfrom). reflexivity.
Qed.

Lemma origin_first_rows_ok :
  stream_ok [Sample.origin_plus; Sample.lift_plus; Sample.origin_other].
Proof.
  constructor.
  - apply Forall_forall. intros r [<-|[<-|[<-|[]]]];
      (split; [reflexivity | (left; reflexivity) || (right; reflexivity)]).
  - repeat constructor; simpl; intuition discriminate.
  - repeat constructor; simpl; intuition discriminate.
  - intros l [<-|[<-|[<-|[]]]] H; try discriminate.
    exists Sample.origin_plus. simpl. auto.
  - reflexivity.
Qed.

Lemma tie_break_independent_witness :
  stream_ok Sample.sorted_rows
  /\ stream_ok [Sample.origin_plus; Sample.lift_plus; Sample.origin_other]
  /\ Emitter.merge_join (lines_of Sample.sorted_rows)
     = Emitter.merge_join
         (lines_of [Sample.origin_plus; Sample.lift_plus; Sample.origin_other]).
Proof.
  split; [exact sorted_rows_ok|].
  split; [exact origin_first_rows_ok|].
  apply (tie_break_independent Sample.sorted_rows
           [Sample.origin_plus; Sample.lift_plus; Sample.origin_other]).
  - exact sorted_rows_ok.
  - exact origin_first_rows_ok.
  - reflexivity.
  - intros l [<-|[<-|[<-|[]]]] H; simpl; auto.
  - intros l [<-|[<-|[<-|[]]]] H; simpl; auto.
Defined.

(** ** Streams of any shape *)

Section AnyStream.

Import Emitter.

Lemma adjacent_keys_differ_cons2 (a b : row) (rest : list row) :
  adjacent_keys_differ (a :: b :: rest)
  = negb (tokens_eqb (key a) (key b)) && adjacent_keys_differ (b :: rest).
Proof. reflexivity. Qed.

(** The pass prints at most one line per row and at least one line per
    two rows; one line per row exactly when nothing is paired. *)
Lemma pair_adjacent_count (n : nat) :
  forall rows, length rows <= n ->
    length (pair_adjacent rows) <= length rows
    /\ length rows <= 2 * length (pair_adjacent rows)
    /\ (length (pair_adjacent rows) = length rows
        <-> adjacent_keys_differ rows = true).
Proof.
  induction n as [|n IH]; intros rows Hlen.
  { destruct rows; [simpl; intuition lia | simpl in Hlen; lia]. }
  destruct rows as [|a [|b rest]]; [simpl; intuition lia | simpl; intuition lia|].
  rewrite pair_adjacent_cons2, adjacent_keys_differ_cons2.
  destruct (tokens_eqb (key a) (key b)).
  - destruct (IH rest) as (H1 & H2 & _); [simpl in Hlen; lia|].
    simpl length. simpl negb. rewrite andb_false_l.
    repeat split; try lia; intros; (lia || discriminate).
  - destruct (IH (b :: rest)) as (H1 & H2 & H3); [simpl in Hlen |- *; lia|].
    simpl negb. rewrite andb_true_l. rewrite <- H3.
    simpl length in *. repeat split; lia.
Qed.

End AnyStream.

(** X10.  On any stream of at least two rows the emitter prints at most
    one line per row and at least one line for every two rows, and it
    prints as many lines as there are rows exactly when no row shares its
    first four fields with the row after it. *)
Theorem line_count (rows : list row) :
  Forall (fun r => clean_row r = true) rows ->
  2 <= length rows ->
  exists out,
    Emitter.merge_join (lines_of rows) = Some out
    /\ length out <= length rows
    /\ length rows <= 2 * length out
    /\ (length out = length rows <-> adjacent_keys_differ rows = true).
Proof.
  intros Hc Hlen. rewrite (merge_join_lines rows Hc).
  assert (Hstray : stray_lines rows = []).
  { destruct rows as [|a [|b rows]]; simpl in Hlen; (lia || reflexivity). }
  rewrite Hstray, app_nil_r. eexists. split; [reflexivity|].
  rewrite length_map. apply (pair_adjacent_count (length rows)). lia.
Qed.

Lemma line_count_witness :
  Forall (fun r => clean_row r = true) Sample.interleaved_rows
  /\ exists out,
       Emitter.merge_join (lines_of Sample.interleaved_rows) = Some out
       /\ length out <= length Sample.interleaved_rows
       /\ length Sample.interleaved_rows <= 2 * length out
       /\ (length out = length Sample.interleaved_rows
           <-> adjacent_keys_differ Sample.interleaved_rows = true).
Proof.
  assert (Hc : Forall (fun r => clean_row r = true) Sample.interleaved_rows)
    by (repeat constructor).
  split; [exact Hc|].
  apply (line_count Sample.interleaved_rows Hc). simpl; lia.
Defined.

Section KeysConserved.

Import Emitter.

Lemma forallb_firstn {A} (p : A -> bool) (n : nat) (l : list A) :
  forallb p l = true -> forallb p (firstn n l) = true.
Proof.
  revert n. induction l as [|x l IH]; intros [|n]; simpl; auto.
  rewrite !andb_true_iff. intros [Hx Hl]. auto.
Qed.

Lemma forallb_skipn {A} (p : A -> bool) (n : nat) (l : list A) :
  forallb p l = true -> forallb p (skipn n l) = true.
Proof.
  revert n. induction l as [|x l IH]; intros [|n]; simpl; auto.
  rewrite !andb_true_iff. intros [Hx Hl]. auto.
Qed.

Lemma slice_no_tab (a b : nat) (r : row) :
  forallb (no_char tab) r = true -> forallb (no_char tab) (slice a b r) = true.
Proof. intros H. unfold slice. apply forallb_firstn, forallb_skipn, H. Qed.

Lemma key_app_ge4 (r m : row) : 4 <= length r -> key (r ++ m) = key r.
Proof.
  intros H. unfold key. rewrite firstn_app.
  replace (4 - length r) with 0 by lia. simpl. apply app_nil_r.
Qed.

Lemma nonempty_ge4 (r m : row) : 4 <= length r -> r ++ m <> [].
Proof. destruct r; simpl; [lia | discriminate]. Qed.

Lemma paired_facts (a b : row) :
  clean_row a = true -> clean_row b = true ->
  4 <= length a -> 4 <= length b -> key a = key b ->
  paired a b <> []
  /\ forallb (no_char tab) (paired a b) = true
  /\ key (paired a b) = key a.
Proof.
  intros Ha Hb La Lb Hk. unfold paired.
  destruct (length b <? length a)%nat.
  - split; [apply nonempty_ge4; assumption|]. split.
    + rewrite forallb_app, (clean_no_tab b Hb).
      apply slice_no_tab, clean_no_tab, Ha.
    + rewrite key_app_ge4 by assumption. congruence.
  - split; [apply nonempty_ge4; assumption|]. split.
    + rewrite forallb_app, (clean_no_tab a Ha).
      apply slice_no_tab, clean_no_tab, Hb.
    + apply key_app_ge4; assumption.
Qed.

Lemma unpaired_facts (a : row) :
  clean_row a = true -> 4 <= length a ->
  a ++ NA4 <> []
  /\ forallb (no_char tab) (a ++ NA4) = true
  /\ key (a ++ NA4) = key a.
Proof.
  intros Ha La. split; [apply nonempty_ge4; assumption|]. split.
  - rewrite forallb_app, (clean_no_tab a Ha). reflexivity.
  - apply key_app_ge4; assumption.
Qed.

Lemma pair_adjacent_keys (n : nat) :
  forall rows, length rows <= n ->
    Forall (fun r => clean_row r = true /\ 4 <= length r) rows ->
    Forall (fun p => p <> [] /\ forallb (no_char tab) p = true)
      (pair_adjacent rows)
    /\ forall k, In k (map key (pair_adjacent rows)) <-> In k (map key rows).
Proof.
  induction n as [|n IH]; intros rows Hlen Hrows.
  { destruct rows; [simpl; split; [constructor | tauto] | simpl in Hlen; lia]. }
  destruct rows as [|a [|b rest]].
  - simpl. split; [constructor | tauto].
  - inversion Hrows as [|? ? [Ha La] _]; subst.
    destruct (unpaired_facts a Ha La) as (H1 & H2 & H3).
    simpl pair_adjacent. split; [repeat constructor; assumption|].
    intros k. simpl. rewrite H3. tauto.
  - inversion Hrows as [|? ? [Ha La] Hrows']; subst.
    inversion Hrows' as [|? ? [Hb Lb] Hrest]; subst.
    rewrite pair_adjacent_cons2.
    destruct (tokens_eqb (key a) (key b)) eqn:Hk.
    + apply tokens_eqb_eq in Hk.
      destruct (paired_facts a b Ha Hb La Lb Hk) as (H1 & H2 & H3).
      destruct (IH rest) as [Hf Hi]; [simpl in Hlen; lia | assumption|].
      split; [constructor; auto|].
      intros k. simpl. rewrite H3, Hi, <- Hk. tauto.
    + destruct (unpaired_facts a Ha La) as (H1 & H2 & H3).
      destruct (IH (b :: rest)) as [Hf Hi];
        [simpl in Hlen |- *; lia | assumption|].
      split; [constructor; auto|].
      intros k. cbn [map In]. rewrite H3, Hi. simpl. tauto.
Qed.

End KeysConserved.

(** X11.  On any stream of at least two rows that have four fields or more
    the emitter neither loses nor invents a key: the 4-field keys of the
    printed lines are exactly the 4-field keys of the rows of the stream. *)
Theorem keys_conserved (rows : list row) :
  Forall (fun r => clean_row r = true /\ 4 <= length r) rows ->
  2 <= length rows ->
  exists out,
    Emitter.merge_join (lines_of rows) = Some out
    /\ forall k,
         In k (map (fun line => key (split tab line)) out)
         <-> In k (map key rows).
Proof.
  intros Hrows Hlen.
  assert (Hc : Forall (fun r => clean_row r = true) rows).
  { eapply Forall_impl; [|exact Hrows]. simpl. tauto. }
  rewrite (merge_join_lines rows Hc).
  assert (Hstray : stray_lines rows = []).
  { destruct rows as [|a [|b rows]]; simpl in Hlen; (lia || reflexivity). }
  rewrite Hstray, app_nil_r. eexists. split; [reflexivity|].
  destruct (pair_adjacent_keys (length rows) rows (le_n _) Hrows) as [Hf Hi].
  intros k. rewrite <- Hi, map_map.
  assert (E : map (fun p => key (split tab (join tab p))) (pair_adjacent rows)
              = map key (pair_adjacent rows)).
  { apply map_ext_in. intros p Hp. rewrite Forall_forall in Hf.
    destruct (Hf p Hp) as [Hne Htab]. rewrite split_join by assumption.
    reflexivity. }
  rewrite E. tauto.
Qed.

Lemma keys_conserved_witness :
  Forall (fun r => clean_row r = true /\ 4 <= length r)
    Sample.desynchronized_rows
  /\ exists out,
       Emitter.merge_join (lines_of Sample.desynchronized_rows) = Some out
       /\ forall k,
            In k (map (fun line => key (split tab line)) out)
            <-> In k (map key Sample.desynchronized_rows).
Proof.
  assert (Hc : Forall (fun r => clean_row r = true /\ 4 <= length r)
                 Sample.desynchronized_rows).
  { repeat constructor; simpl; lia. }
  split; [exact Hc|].
  apply (keys_conserved Sample.desynchronized_rows Hc). simpl; lia.
Defined.

(** X12.  Two rows at the head of the stream that share their first four
    fields are always printed as one line, whatever they are: when the
    second is not the shorter one, the line is the first row followed by
    fields 5-8 of the second.  Two junction rows with the same key (a
    duplicated junction) are therefore merged into one line, and the whole
    stream prints fewer lines than it has rows. *)
Theorem same_key_rows_collapse (a b : row) (rest : list row) :
  clean_row a = true -> clean_row b = true ->
  Forall (fun r => clean_row r = true) rest ->
  key a = key b -> length a <= length b ->
  exists tail,
    Emitter.merge_join (lines_of (a :: b :: rest))
    = Some (join tab (a ++ slice 4 8 b) :: tail)
    /\ length tail <= length rest.
Proof.
  intros Ha Hb Hrest Hk Hlen.
  rewrite (merge_join_lines (a :: b :: rest)) by (repeat constructor; assumption).
  rewrite pair_adjacent_cons2.
  apply tokens_eqb_eq in Hk. rewrite Hk.
  unfold paired. apply Nat.ltb_ge in Hlen. rewrite Hlen.
  simpl stray_lines. rewrite app_nil_r.
  exists (map (join tab) (pair_adjacent rest)). split; [reflexivity|].
  rewrite length_map. apply (pair_adjacent_count (length rest)). lia.
Qed.

Lemma same_key_rows_collapse_witness :
  key Sample.origin_plus = key Sample.origin_plus
  /\ exists tail,
       Emitter.merge_join
         (lines_of [Sample.origin_plus; Sample.origin_plus; Sample.origin_other])
       = Some (join tab (Sample.origin_plus ++ slice 4 8 Sample.origin_plus)
               :: tail)
       /\ length tail <= length [Sample.origin_other].
Proof.
  split; [reflexivity|].
  apply (same_key_rows_collapse Sample.origin_plus Sample.origin_plus
           [Sample.origin_other]).
  - reflexivity.
  - reflexivity.
  - repeat constructor.
  - reflexivity.
  - simpl; lia.
Defined.

(** ** More on the script as a whole *)

Section ScriptMore.

Lemma normalize_line_kinds (i : nat) (line : string) (e : exn) :
  Normalizer.normalize_line i line = inl e -> e = IndexError \/ e = ValueError.
Proof.
  unfold Normalizer.normalize_line, Normalizer.bed_fields, index, int_of.
  destruct (split tab (strip line)) as [|a [|b tl]]; simpl;
    try (intros [= <-]; auto).
  destruct (int b); simpl; [|intros [= <-]; auto].
  destruct tl as [|c [|d more]]; simpl; intros [= <-]; auto.
Qed.

Lemma normalizer_kinds (lines : list string) (e : exn) :
  Normalizer.normalizer lines = inl e -> e = IndexError \/ e = ValueError.
Proof.
  intros H. apply normalize_from_first_failure in H.
  destruct H as (pre & line & post & _ & _ & H).
  apply (normalize_line_kinds _ _ _ H).
Qed.

Lemma merger_kinds (hg19 intropolis : list string) (e : exn) :
  Merger.merger hg19 intropolis = inl e -> e = ValueError.
Proof.
  unfold Merger.merger, bind, ret.
  destruct (Merger.lift_rows hg19) as [e'|rows] eqn:Hr; [|discriminate].
  intros [= <-]. apply (lift_rows_only_ValueError hg19 e' Hr).
Qed.

End ScriptMore.

(** X14.  Where an exception of the script comes from.  [IOError]: the
    normalizer went through and [liftOver] left no file.
    [CalledProcessError]: normalizer, [liftOver] and merger went through
    and the shell command line [gzip -cd | sort | gzip] returned a non-zero
    status (the status [check_call] sees, which the shell takes from the
    last command of the pipeline).  [IndexError]: the normalizer raised it.
    [ValueError]: the normalizer raised it, or the normalizer and
    [liftOver] went through and the merger raised it. *)
Theorem main_exceptions
    (liftover : list string -> Z * option (list string))
    (sort_command : list string -> Z * list string)
    (intropolis : list string) (r : run) :
  main liftover sort_command intropolis = Some r ->
  (raised r = Some IOError
   <-> exists bed, Normalizer.normalizer intropolis = inr bed
                   /\ snd (liftover bed) = None)
  /\ (raised r = Some CalledProcessError
      <-> exists bed hg19 to_sort,
            Normalizer.normalizer intropolis = inr bed
            /\ snd (liftover bed) = Some hg19
            /\ Merger.merger hg19 intropolis = inr to_sort
            /\ fst (sort_command to_sort) <> 0%Z)
  /\ (raised r = Some IndexError
      <-> Normalizer.normalizer intropolis = inl IndexError)
  /\ (raised r = Some ValueError
      <-> Normalizer.normalizer intropolis = inl ValueError
          \/ exists bed hg19,
               Normalizer.normalizer intropolis = inr bed
               /\ snd (liftover bed) = Some hg19
               /\ Merger.merger hg19 intropolis = inl ValueError).
Proof.
  unfold main.
  destruct (Normalizer.normalizer intropolis) as [e|bed] eqn:Hn.
  { intros [= <-]. simpl.
    destruct (normalizer_kinds _ _ Hn) as [-> | ->].
    - repeat split; try discriminate; try (intros _; reflexivity).
      + intros (bed & H & _); discriminate.
      + intros (bed & hg19 & to_sort & H & _); discriminate.
      + intros [H|(bed & hg19 & H & _)]; discriminate.
    - repeat split; try discriminate; try (intros _; reflexivity).
      + intros (bed & H & _); discriminate.
      + intros (bed & hg19 & to_sort & H & _); discriminate.
      + intros _. left. reflexivity. }
  destruct (liftover bed) as [status [hg19|]] eqn:Hl.
  2:{ intros [= <-]. simpl. repeat split; try discriminate; try (intros _; reflexivity).
      - intros _. exists bed. rewrite Hl. auto.
      - intros (bed' & hg19 & to_sort & [= <-] & H & _).
        rewrite Hl in H. discriminate.
      - intros [H|(bed' & hg19 & [= <-] & H & _)]; [discriminate|].
        rewrite Hl in H. discriminate. }
  destruct (Merger.merger hg19 intropolis) as [e|to_sort] eqn:Hm.
  { assert (He := merger_kinds _ _ _ Hm). subst e. intros [= <-]. simpl.
    repeat split; try discriminate; try (intros _; reflexivity).
    - intros (bed' & [= <-] & H). rewrite Hl in H. discriminate.
    - intros (bed' & hg19' & to_sort & [= <-] & H & H' & _).
      rewrite Hl in H. simpl in H. injection H as <-. congruence.
    - intros _. right. exists bed, hg19. rewrite Hl. auto. }
  destruct (sort_command to_sort) as [st sorted] eqn:Hs.
  destruct (st =? 0)%Z eqn:Hst.
  - apply Z.eqb_eq in Hst. subst st.
    destruct (Emitter.merge_join sorted) as [out|]; [|discriminate].
    intros [= <-]. simpl. repeat split; try discriminate; try (intros _; reflexivity).
    + intros (bed' & [= <-] & H). rewrite Hl in H. discriminate.
    + intros (bed' & hg19' & to_sort' & [= <-] & H & H' & Hne).
      rewrite Hl in H. simpl in H. injection H as <-.
      rewrite Hm in H'. injection H' as <-. rewrite Hs in Hne.
      exfalso. apply Hne. reflexivity.
    + intros [H|(bed' & hg19' & [= <-] & H & H')]; [discriminate|].
      rewrite Hl in H. simpl in H. injection H as <-. congruence.
  - apply Z.eqb_neq in Hst.
    intros [= <-]. simpl. repeat split; try discriminate; try (intros _; reflexivity).
    + intros (bed' & [= <-] & H). rewrite Hl in H. discriminate.
    + intros _. exists bed, hg19, to_sort. rewrite Hl, Hs. auto.
    + intros [H|(bed' & hg19' & [= <-] & H & H')]; [discriminate|].
      rewrite Hl in H. simpl in H. injection H as <-. congruence.
Qed.

Lemma main_exceptions_witness :
  raised (aborted CalledProcessError) = Some CalledProcessError
  <-> exists bed hg19 to_sort,
        Normalizer.normalizer (lines_of [Sample.origin_plus]) = inr bed
        /\ snd ((fun _ : list string => (0%Z, Some [])) bed) = Some hg19
        /\ Merger.merger hg19 (lines_of [Sample.origin_plus]) = inr to_sort
        /\ fst ((fun _ : list string => (2%Z, @nil string)) to_sort) <> 0%Z.
Proof.
  apply (main_exceptions (fun _ => (0%Z, Some [])) (fun _ => (2%Z, []))
           (lines_of [Sample.origin_plus]) (aborted CalledProcessError)).
  reflexivity.
Defined.

Section EndToEnd.

Lemma line_of_tokens (r : row) :
  clean_row r = true -> split tab (strip (line_of r)) = r.
Proof.
  intros H. destruct (clean_row_parse r H) as (Hs & _ & Hp).
  rewrite Hs. exact Hp.
Qed.

Lemma normalizer_accepts (rows : list row) :
  Forall (fun r => clean_row r = true /\ 4 <= length r
                   /\ int (nth 1 r EmptyString) <> None) rows ->
  exists bed, Normalizer.normalizer (lines_of rows) = inr bed.
Proof.
  intros H.
  destruct (Normalizer.normalizer (lines_of rows)) as [e|bed] eqn:Hn;
    [|eexists; reflexivity].
  exfalso.
  assert (Hbad := proj1 (normalize_from_fails (lines_of rows) 0)
                    (ex_intro _ e Hn)).
  apply Exists_exists in Hbad. destruct Hbad as (line & Hin & Hline).
  apply in_map_iff in Hin. destruct Hin as (r & <- & Hr).
  rewrite Forall_forall in H. destruct (H r Hr) as (Hc & Hlen & Hint).
  rewrite (line_of_tokens r Hc) in Hline.
  destruct Hline as [Hl|Hi]; [lia | contradiction].
Qed.

Lemma str_no_tab (z : Z) : no_char tab (str z) = true.
Proof.
  assert (H : forall d, no_char tab (NilZero.string_of_uint d) = true).
  { intros d. destruct (Decimal.uint_eq_dec d Nil) as [->|Hd]; [reflexivity|].
    rewrite (string_of_uint_nonnil d Hd).
    apply digits_no_char; [reflexivity | apply uint_digits]. }
  destruct z as [|p|p]; [reflexivity| |]; unfold str; simpl; apply H.
Qed.

End EndToEnd.

(** X15.  When [liftOver] lifts nothing (it leaves an empty file, whatever
    its exit status) and [sort] succeeds, the script prints every row of
    the sorted file followed by NA four times, provided every input line
    has at least four fields with an integer start, and the sorted file has
    at least two rows, no two adjacent ones sharing their first four
    fields. *)
Theorem nothing_lifted_all_NA
    (liftover : list string -> Z * option (list string))
    (sort_command : list string -> Z * list string)
    (rows sorted : list row) :
  Forall (fun r => clean_row r = true /\ 4 <= length r
                   /\ int (nth 1 r EmptyString) <> None) rows ->
  (forall bed, snd (liftover bed) = Some []) ->
  sort_command (lines_of rows) = (0%Z, lines_of sorted) ->
  Forall (fun r => clean_row r = true) sorted ->
  2 <= length sorted ->
  adjacent_keys_differ sorted = true ->
  main liftover sort_command (lines_of rows)
  = Some {| stdout := map (fun r => join tab (r ++ Emitter.NA4)) sorted;
            raised := None |}.
Proof.
  intros Hrows Hlift Hsort Hc Hlen Hd.
  destruct (normalizer_accepts rows Hrows) as [bed Hbed].
  unfold main. rewrite Hbed.
  assert (Hl := Hlift bed). destruct (liftover bed) as [status hg19].
  simpl in Hl. subst hg19. cbv beta iota zeta.
  change (Merger.merger [] (lines_of rows)) with (@inr exn _ (lines_of rows)).
  cbv beta iota zeta. rewrite Hsort. cbn [Z.eqb].
  rewrite (merge_join_lines sorted Hc), (pair_adjacent_unmatched sorted Hd), map_map.
  destruct sorted as [|a [|b sorted]]; simpl in Hlen; try lia.
  simpl stray_lines. rewrite app_nil_r. reflexivity.
Qed.

Lemma nothing_lifted_all_NA_witness :
  main (Sample.failing_liftover 0) Sample.sort_in_order
    (lines_of [Sample.origin_plus; Sample.origin_other])
  = Some {| stdout := map (fun r => join tab (r ++ Emitter.NA4))
                        [Sample.origin_plus; Sample.origin_other];
            raised := None |}.
Proof.
  apply (nothing_lifted_all_NA (Sample.failing_liftover 0) Sample.sort_in_order
           [Sample.origin_plus; Sample.origin_other]
           [Sample.origin_plus; Sample.origin_other]).
  - repeat constructor; simpl; (lia || discriminate).
  - reflexivity.
  - reflexivity.
  - repeat constructor.
  - simpl; lia.
  - reflexivity.
Defined.

(** X16.  One junction, lifted.  The input is a single 8-field line whose
    start is written as the decimal numeral of [n]; [liftOver] returns the
    BED record under the name the normalizer gave it, with lifted fields
    [c], [s] (reading as [k]), [e] and [st]; [sort] succeeds and leaves the
    two rows in either order.  Then the script prints exactly one line: the
    input fields followed by [c], [k + 1], [e] and [st]. *)
Theorem lifted_junction_printed
    (liftover : list string -> Z * option (list string))
    (sort_command : list string -> Z * list string)
    (n k : Z) (chrom end_ strand c s e score st : string) (more : list string) :
  let o := chrom :: str n :: end_ :: strand :: more in
  let m := [c; s; e;
            ("info_" ++ Normalizer.junction_name 0 chrom (str (n - 1)) end_ strand)%string;
            score; st] in
  let lift := [chrom; str n; end_; strand; c; str (k + 1); e; st;
               Merger.marker] in
  clean_row o = true -> is_origin o = true ->
  no_char semicolon chrom = true ->
  no_char semicolon end_ = true ->
  no_char semicolon strand = true ->
  clean_row m = true -> int s = Some k ->
  (forall bed, snd (liftover bed) = Some [line_of m]) ->
  (sort_command [line_of lift; line_of o] = (0%Z, [line_of lift; line_of o])
   \/ sort_command [line_of lift; line_of o] = (0%Z, [line_of o; line_of lift])) ->
  main liftover sort_command [line_of o]
  = Some {| stdout := [join tab (o ++ [c; str (k + 1); e; st])];
            raised := None |}.
Proof.
  intros o m lift Ho Horigin Hc He Hst Hm Hs Hlift Hsort.
  assert (Hmore : exists m1 m2 m3 m4, more = [m1; m2; m3; m4]).
  { unfold is_origin, o in Horigin. apply Nat.eqb_eq in Horigin.
    simpl in Horigin.
    do 4 (destruct more as [|? more]; [discriminate|]).
    destruct more; [|discriminate]. eauto. }
  destruct Hmore as (m1 & m2 & m3 & m4 & ->).
  (* the normalizer *)
  assert (Hbed : Normalizer.normalizer [line_of o]
                 = inr [println (Normalizer.bed_record 0 chrom (str (n - 1))
                                   end_ strand)]).
  { unfold Normalizer.normalizer. cbn [Normalizer.normalize_from].
    unfold Normalizer.normalize_line. rewrite (line_of_tokens o Ho).
    unfold o at 1.
    rewrite (bed_fields_ok chrom (str n) end_ strand _ n (int_str n)).
    reflexivity. }
  (* the merger *)
  assert (Hrow : Merger.merger [line_of m] [line_of o]
                 = inr [line_of lift; line_of o]).
  { unfold Merger.merger. cbn [Merger.lift_rows].
    unfold Merger.lift_row, Merger.lift_tokens.
    rewrite (line_of_tokens m Hm). unfold m at 1. cbn [firstn].
    rewrite (info_name_split 0 chrom (str (n - 1)) end_ strand Hc
               (str_no_semicolon _) He Hst).
    unfold int_of. rewrite int_str, Hs. cbn [bind ret].
    replace (n - 1 + 1)%Z with n by lia. reflexivity. }
  (* the rebuilt row is clean *)
  assert (Hclean : clean_row lift = true).
  { unfold clean_row in Ho, Hm |- *. unfold o in Ho. unfold m in Hm.
    unfold lift. cbn [forallb hd last] in Ho, Hm |- *.
    rewrite !andb_true_iff in Ho, Hm.
    destruct Ho as [[(H1 & _ & H3 & H4 & _) Hf] _].
    destruct Hm as [[(G1 & _ & G3 & _ & _ & G6 & _) _] _].
    rewrite H1, H3, H4, G1, G3, G6, !str_no_tab, Hf. reflexivity. }
  assert (Hkey : tokens_eqb (key lift) (key o) = true)
    by (apply tokens_eqb_refl).
  assert (Hkey' : tokens_eqb (key o) (key lift) = true)
    by (apply tokens_eqb_refl).
  unfold main. rewrite Hbed.
  assert (Hl := Hlift [println (Normalizer.bed_record 0 chrom (str (n - 1))
                                  end_ strand)]).
  destruct (liftover _) as [status hg19]. simpl in Hl. subst hg19.
  cbv beta iota zeta. rewrite Hrow. cbv beta iota zeta.
  destruct Hsort as [-> | ->]; cbv beta iota zeta; cbn [Z.eqb].
  - change [line_of lift; line_of o] with (lines_of [lift; o]).
    rewrite (merge_join_lines [lift; o]) by (repeat constructor; assumption).
    rewrite pair_adjacent_cons2, Hkey. reflexivity.
  - change [line_of o; line_of lift] with (lines_of [o; lift]).
    rewrite (merge_join_lines [o; lift]) by (repeat constructor; assumption).
    rewrite pair_adjacent_cons2, Hkey'. reflexivity.
Qed.

Lemma lifted_junction_printed_witness :
  main (fun bed => (0%Z, Some [line_of Sample.lifted_record]))
    Sample.sort_in_order [line_of Sample.origin_plus]
  = Some {| stdout := [join tab (Sample.origin_plus
                                 ++ ["chr1"; str (49 + 1); "150"; "+"])];
            raised := None |}.
Proof.
  apply (lifted_junction_printed
           (fun bed => (0%Z, Some [line_of Sample.lifted_record]))
           Sample.sort_in_order 100 49
           "chr1" "200" "+" "chr1" "49" "150" "1" "+"
           ["GT"; "AG"; "0,1"; "5,10"]);
    try reflexivity.
  left. reflexivity.
Defined.

(** ** From the lifted file to the printed line *)

Section MergedStream.

Import Merger.

Lemma println_inj (a b : string) : println a = println b -> a = b.
Proof.
  unfold println. revert b.
  induction a as [|x a IH]; intros [|y b]; simpl; intros H.
  - reflexivity.
  - injection H as _ H. destruct b; discriminate.
  - injection H as _ H. destruct a; discriminate.
  - injection H as -> H. f_equal. apply IH, H.
Qed.

Lemma split_parts_no_sep (sep : ascii) (s : string) :
  forallb (no_char sep) (split sep s) = true.
Proof.
  induction s as [|c s IH]; [reflexivity|].
  simpl. destruct (Ascii.eqb c sep) eqn:Hc; [exact IH|].
  destruct (split sep s) as [|h t]; simpl in *; rewrite Hc; simpl.
  - reflexivity.
  - exact IH.
Qed.

Lemma split_parts_no_char (c d : ascii) (s : string) :
  no_char c s = true -> forallb (no_char c) (split d s) = true.
Proof.
  induction s as [|x s IH]; [reflexivity|].
  simpl. rewrite andb_true_iff. intros [Hx Hs].
  destruct (Ascii.eqb x d); [simpl; apply IH, Hs|].
  assert (IH' := IH Hs).
  destruct (split d s) as [|h t]; simpl in *; rewrite Hx; simpl.
  - reflexivity.
  - exact IH'.
Qed.

(** No field of a rebuilt row holds a tab. *)
Lemma lift_tokens_no_tab (mapped : string) (l : list string) :
  lift_tokens mapped = inr l -> forallb (no_char tab) l = true /\ l <> [].
Proof.
  unfold lift_tokens.
  assert (Ht := forallb_firstn (no_char tab) 6 _
                  (split_parts_no_sep tab (strip mapped))).
  destruct (firstn 6 (split tab (strip mapped)))
    as [|c [|s [|e [|name [|score [|st [|x r]]]]]]]; try discriminate.
  cbn [forallb] in Ht. rewrite !andb_true_iff in Ht.
  destruct Ht as (Hc & _ & He & Hname & _ & Hst & _).
  assert (Hp := split_parts_no_char tab semicolon name Hname).
  destruct (split semicolon name)
    as [|x0 [|x1 [|x2 [|x3 [|x4 [|x5 r]]]]]]; try discriminate.
  cbn [forallb] in Hp. rewrite !andb_true_iff in Hp.
  destruct Hp as (_ & H1 & _ & H3 & H4 & _).
  unfold int_of. destruct (int x2) as [h|]; [|discriminate].
  destruct (int s) as [k|]; [|discriminate].
  cbn [bind ret]. intros [= <-]. split; [|discriminate].
  cbn [forallb]. rewrite H1, H3, H4, Hc, He, Hst, !str_no_tab. reflexivity.
Qed.

(** The rows written for the lifted file are the rebuilt rows of its
    records, and nothing else. *)
Lemma lift_rows_In (hg19 : list string) :
  forall rs, lift_rows hg19 = inr rs ->
    forall r, In r rs
      <-> exists mapped l,
            In mapped hg19 /\ lift_tokens mapped = inr l
            /\ r = println (join tab l).
Proof.
  induction hg19 as [|x rest IH]; intros rs H r.
  - injection H as <-. split; [intros []|].
    intros (mapped & l & [] & _).
  - cbn [lift_rows] in H. unfold bind, ret in H.
    destruct (lift_row x) as [e|rx] eqn:Hx; [discriminate|].
    destruct (lift_rows rest) as [e|rs'] eqn:Hr; [discriminate|].
    injection H as <-.
    apply lift_row_tokens in Hx. destruct Hx as (lx & Hlx & ->).
    split.
    + intros [<-|Hin].
      * exists x, lx. simpl. auto.
      * apply (IH rs' eq_refl) in Hin.
        destruct Hin as (mapped & l & Hm & Hl & ->).
        exists mapped, l. simpl. auto.
    + intros (mapped & l & [<-|Hm] & Hl & ->).
      * left. congruence.
      * right. apply (IH rs' eq_refl). exists mapped, l. auto.
Qed.

(** A clean row whose line is the line of a rebuilt row is that row. *)
Lemma rebuilt_row_in_stream (mapped : string) (l r : row) :
  lift_tokens mapped = inr l -> clean_row r = true ->
  line_of r = println (join tab l) -> r = l.
Proof.
  intros Hl Hr E. destruct (lift_tokens_no_tab mapped l Hl) as [Htab Hne].
  apply println_inj in E.
  apply (join_inj tab r l); auto.
  - intros ->. discriminate.
  - apply clean_no_tab, Hr.
Qed.

End MergedStream.

(** C2.  The merger rebuilds the lift rows, [sort] rearranges the merged
    file, and the emitter prints.  Take the file the merger hands to
    [sort], any well-formed sorted stream holding the same lines, and an
    origin row [o] of it; the input lines have eight fields.  The line
    printed for [o] is [o]'s eight fields followed by four fields [m], it
    has twelve fields, and no other printed line carries [o]'s key.  When
    a lifted record is rebuilt to a row with [o]'s key, [m] is that
    record's chromosome, its start plus one, its end and its strand - the
    rebuilt row's ninth field, the marker, is dropped; when no lifted
    record is rebuilt to a row with [o]'s key, [m] is NA four times. *)
Theorem output_row_fields (hg19 intropolis to_sort : list string)
    (rows : list row) (o : row) :
  Merger.merger hg19 intropolis = inr to_sort ->
  (forall line, In line (lines_of rows) <-> In line to_sort) ->
  Forall (fun line => length (split tab (strip line)) = 8) intropolis ->
  stream_ok rows -> In o rows -> is_origin o = true ->
  exists out m,
    Emitter.merge_join (lines_of rows) = Some out
    /\ In (join tab (o ++ m)) out
    /\ split tab (join tab (o ++ m)) = o ++ m
    /\ length (o ++ m) = 12
    /\ (forall line, In line out -> key (split tab line) = key o ->
          line = join tab (o ++ m))
    /\ (forall mapped l,
          In mapped hg19 -> Merger.lift_tokens mapped = inr l ->
          key l = key o ->
          exists c s e name score st k,
            firstn 6 (split tab (strip mapped)) = [c; s; e; name; score; st]
            /\ int s = Some k
            /\ nth_error l 8 = Some Merger.marker
            /\ m = [c; str (k + 1); e; st])
    /\ ((forall mapped l,
           In mapped hg19 -> Merger.lift_tokens mapped = inr l ->
           key l <> key o) ->
        m = ["NA"; "NA"; "NA"; "NA"]).
Proof.
  intros Hmerge Hsame Hinput Hok Hin Ho.
  unfold Merger.merger, bind, ret in Hmerge.
  destruct (Merger.lift_rows hg19) as [e|rs] eqn:Hrs; [discriminate|].
  injection Hmerge as <-.
  assert (Hrebuilt := lift_rows_In hg19 rs Hrs).
  assert (Hall := stream_ok_clean rows Hok).
  destruct (emitter_row_fields rows o Hok Hin Ho)
    as (out & m & Hout & Hprinted & Hsplit & Hlen & Honly & Hlift & Hnone).
  exists out, m.
  repeat (split; [assumption|]). split.
  - intros mapped l Hm Hl Hk.
    assert (Hl_in : In l rows).
    { assert (Hline : In (println (join tab l)) (lines_of rows)).
      { apply Hsame. apply in_or_app. left. apply Hrebuilt.
        exists mapped, l. auto. }
      apply in_map_iff in Hline. destruct Hline as (r & Hr & Hrin).
      assert (Hrc : clean_row r = true) by (rewrite Forall_forall in Hall; auto).
      rewrite <- (rebuilt_row_in_stream mapped l r Hl Hrc Hr). exact Hrin. }
    destruct (lift_tokens_shape mapped l Hl)
      as (c & s & e & name & score & st & k & Hf & Hs & Hshape & Hslice & Hmark).
    exists c, s, e, name, score, st, k.
    repeat (split; [assumption|]).
    rewrite (Hlift l Hl_in Hshape Hk), <- (slice_lift l Hshape). exact Hslice.
  - intros Hno. apply Hnone. intros r Hr Hrl Hk.
    assert (Hrc : clean_row r = true) by (rewrite Forall_forall in Hall; auto).
    assert (Hline : In (line_of r) (rs ++ intropolis)).
    { apply Hsame. apply in_map. exact Hr. }
    apply in_app_or in Hline. destruct Hline as [Hline|Hline].
    + apply Hrebuilt in Hline. destruct Hline as (mapped & l & Hm & Hl & E).
      rewrite (rebuilt_row_in_stream mapped l r Hl Hrc E) in Hk.
      apply (Hno mapped l Hm Hl Hk).
    + rewrite Forall_forall in Hinput. assert (H8 := Hinput _ Hline).
      rewrite (line_of_tokens r Hrc) in H8.
      unfold is_lift in Hrl. apply Nat.eqb_eq in Hrl. lia.
Qed.

Lemma output_row_fields_witness :
  Merger.merger [line_of Sample.lifted_record]
    (lines_of [Sample.origin_plus; Sample.origin_other])
  = inr (lines_of Sample.sorted_rows)
  /\ stream_ok Sample.sorted_rows
  /\ exists out m,
       Emitter.merge_join (lines_of Sample.sorted_rows) = Some out
       /\ In (join tab (Sample.origin_plus ++ m)) out
       /\ split tab (join tab (Sample.origin_plus ++ m)) = Sample.origin_plus ++ m
       /\ length (Sample.origin_plus ++ m) = 12
       /\ (forall line, In line out ->
             key (split tab line) = key Sample.origin_plus ->
             line = join tab (Sample.origin_plus ++ m))
       /\ (forall mapped l,
             In mapped [line_of Sample.lifted_record] ->
             Merger.lift_tokens mapped = inr l ->
             key l = key Sample.origin_plus ->
             exists c s e name score st k,
               firstn 6 (split tab (strip mapped)) = [c; s; e; name; score; st]
               /\ int s = Some k
               /\ nth_error l 8 = Some Merger.marker
               /\ m = [c; str (k + 1); e; st])
       /\ ((forall mapped l,
              In mapped [line_of Sample.lifted_record] ->
              Merger.lift_tokens mapped = inr l ->
              key l <> key Sample.origin_plus) ->
           m = ["NA"; "NA"; "NA"; "NA"]).
Proof.
  split; [reflexivity|]. split; [exact sorted_rows_ok|].
  apply (output_row_fields [line_of Sample.lifted_record]
           (lines_of [Sample.origin_plus; Sample.origin_other])
           (lines_of Sample.sorted_rows) Sample.sorted_rows Sample.origin_plus).
  - reflexivity.
  - intros line. tauto.
  - repeat constructor.
  - exact sorted_rows_ok.
  - simpl; auto.
  - reflexivity.
Defined.

(** ** Streams in which a lift row may lack its origin row *)

Section LooseStream.

Import Emitter.

Lemma rows_ok_def (rows : list row) :
  rows_ok rows
  <-> (Forall (fun r => clean_row r = true
                        /\ (is_origin r = true \/ is_lift r = true)) rows
       /\ NoDup (map key (filter is_origin rows))
       /\ NoDup (map key (filter is_lift rows))
       /\ contiguous (map key rows) = true).
Proof. reflexivity. Qed.

Lemma stream_ok_rows_ok (rows : list row) : stream_ok rows -> rows_ok rows.
Proof. intros [Hs Ho Hl _ Hc]. unfold rows_ok. auto. Qed.

Lemma rows_ok_tail (a : row) (rows : list row) :
  rows_ok (a :: rows) -> rows_ok rows.
Proof.
  rewrite !rows_ok_def. intros (Hs & Ho & Hl & Hc).
  split; [inversion Hs; assumption|].
  split; [eapply NoDup_filter_tail; eassumption|].
  split; [eapply NoDup_filter_tail; eassumption|].
  eapply contiguous_tail; eassumption.
Qed.

Lemma rows_ok_kind (rows : list row) (r : row) :
  rows_ok rows -> In r rows ->
  clean_row r = true /\ (is_origin r = true \/ is_lift r = true).
Proof.
  rewrite rows_ok_def. intros (Hs & _) Hin.
  rewrite Forall_forall in Hs. auto.
Qed.

Lemma rows_ok_ge4 (rows : list row) :
  rows_ok rows -> Forall (fun r => clean_row r = true /\ 4 <= length r) rows.
Proof.
  rewrite rows_ok_def. intros (Hs & _).
  eapply Forall_impl; [|exact Hs]. simpl.
  unfold is_origin, is_lift. intros r [Hc [H|H]];
    apply Nat.eqb_eq in H; split; (assumption || lia).
Qed.

(** Two head rows with one key: an origin row and a lift row, and the key
    does not come back. *)
Lemma rows_ok_pair_head (a b : row) (rest : list row) :
  rows_ok (a :: b :: rest) -> key a = key b ->
  ((is_origin a = true /\ is_lift b = true)
   \/ (is_lift a = true /\ is_origin b = true))
  /\ (forall x, In x rest -> key x <> key a).
Proof.
  intros H Hk.
  destruct (rows_ok_kind _ a H (or_introl eq_refl)) as [_ Hsa].
  destruct (rows_ok_kind _ b H (or_intror (or_introl eq_refl))) as [_ Hsb].
  assert (Hrest : forall x, In x rest ->
                    is_origin x = true \/ is_lift x = true).
  { intros x Hx. apply (rows_ok_kind _ x H). simpl; auto. }
  apply rows_ok_def in H. destruct H as (_ & Ho & Hl & _).
  assert (Hkinds : (is_origin a = true /\ is_lift b = true)
                   \/ (is_lift a = true /\ is_origin b = true)).
  { destruct Hsa as [Ha|Ha], Hsb as [Hb|Hb]; auto; exfalso.
    - apply (NoDup_filter_head _ _ b _ Ho Ha (or_introl eq_refl) Hb).
      symmetry; assumption.
    - apply (NoDup_filter_head _ _ b _ Hl Ha (or_introl eq_refl) Hb).
      symmetry; assumption. }
  split; [assumption|].
  intros x Hx E.
  destruct Hkinds as [[Ha Hb]|[Ha Hb]], (Hrest x Hx) as [Hx'|Hx'].
  - apply (NoDup_filter_head _ _ x _ Ho Ha (or_intror Hx) Hx' E).
  - apply NoDup_filter_tail in Hl.
    apply (NoDup_filter_head _ _ x _ Hl Hb Hx Hx'). congruence.
  - apply NoDup_filter_tail in Ho.
    apply (NoDup_filter_head _ _ x _ Ho Hb Hx Hx'). congruence.
  - apply (NoDup_filter_head _ _ x _ Hl Ha (or_intror Hx) Hx' E).
Qed.

Lemma rows_ok_fresh_head (a b : row) (rest : list row) :
  rows_ok (a :: b :: rest) -> key a <> key b ->
  forall x, In x (b :: rest) -> key x <> key a.
Proof.
  intros H Hk x Hx E. apply rows_ok_def in H. destruct H as (_ & _ & _ & Hc).
  apply (contiguous_head_neq (key a) (key b) (map key rest) Hc Hk).
  rewrite <- E. apply (in_map key (b :: rest) x Hx).
Qed.

(** Lines printed for the rest of the stream do not carry a key that the
    rest of the stream does not hold. *)
Lemma pair_adjacent_fresh (rows : list row) (k : list string) :
  rows_ok rows -> (forall x, In x rows -> key x <> k) ->
  forall p, In p (pair_adjacent rows) -> key p <> k.
Proof.
  intros H Hfresh p Hp E.
  destruct (pair_adjacent_keys (length rows) rows (le_n _) (rows_ok_ge4 rows H))
    as [_ Hkeys].
  assert (Hin : In k (map key rows)).
  { apply Hkeys. rewrite <- E. apply in_map, Hp. }
  apply in_map_iff in Hin. destruct Hin as (x & Hx & Hxin).
  apply (Hfresh x Hxin Hx).
Qed.

Lemma count_absent (k : list string) (ps : list row) :
  (forall p, In p ps -> key p <> k) ->
  length (filter (fun p => tokens_eqb (key p) k) ps) = 0.
Proof.
  intros H. apply count_rows_absent. intros Hin.
  apply in_map_iff in Hin. destruct Hin as (p & Hp & Hpin).
  apply (H p Hpin Hp).
Qed.

Lemma paired_key (a b : row) :
  4 <= length a -> 4 <= length b -> key a = key b ->
  key (paired a b) = key a.
Proof.
  intros La Lb Hk. unfold paired.
  destruct (length b <? length a)%nat; rewrite key_app_ge4 by assumption;
    congruence.
Qed.

(** Exactly one printed row carries the key of an origin row. *)
Lemma pair_adjacent_one (n : nat) :
  forall rows, length rows <= n -> rows_ok rows ->
    forall o, In o rows -> is_origin o = true ->
      length (filter (fun p => tokens_eqb (key p) (key o))
                (pair_adjacent rows)) = 1.
Proof.
  induction n as [|n IH]; intros rows Hlen H o Hin Ho.
  { destruct rows; [destruct Hin | simpl in Hlen; lia]. }
  assert (Hge := rows_ok_ge4 rows H).
  destruct rows as [|a [|b rest]]; [destruct Hin| |].
  - destruct Hin as [<-|[]].
    inversion Hge as [|? ? [_ La] _]; subst.
    simpl. rewrite (key_app_ge4 a NA4 La), tokens_eqb_refl. reflexivity.
  - inversion Hge as [|? ? [_ La] Hge']; subst.
    inversion Hge' as [|? ? [_ Lb] _]; subst.
    assert (Htl := rows_ok_tail a _ H).
    assert (Hrest := rows_ok_tail b _ Htl).
    rewrite pair_adjacent_cons2.
    destruct (tokens_eqb (key a) (key b)) eqn:Hk.
    + apply tokens_eqb_eq in Hk.
      destruct (rows_ok_pair_head a b rest H Hk) as [Hkinds Hfresh].
      cbn [filter]. rewrite (paired_key a b La Lb Hk).
      destruct (tokens_eqb (key a) (key o)) eqn:Hao.
      * apply tokens_eqb_eq in Hao. cbn [length]. f_equal.
        apply count_absent. rewrite <- Hao.
        apply (pair_adjacent_fresh rest (key a) Hrest Hfresh).
      * apply tokens_eqb_neq in Hao.
        apply (IH rest); [simpl in Hlen; lia | assumption | | assumption].
        destruct Hin as [<-|[<-|Hin]]; [congruence | congruence | assumption].
    + apply tokens_eqb_neq in Hk.
      assert (Hfresh := rows_ok_fresh_head a b rest H Hk).
      cbn [filter]. rewrite (key_app_ge4 a NA4 La).
      destruct (tokens_eqb (key a) (key o)) eqn:Hao.
      * apply tokens_eqb_eq in Hao. cbn [length]. f_equal.
        apply count_absent. rewrite <- Hao.
        apply (pair_adjacent_fresh (b :: rest) (key a) Htl Hfresh).
      * apply tokens_eqb_neq in Hao.
        apply (IH (b :: rest));
          [simpl in Hlen |- *; lia | assumption | | assumption].
        destruct Hin as [<-|Hin]; [congruence | assumption].
Qed.

(** A lift row whose key an origin row of the stream bears is printed with
    that origin row, and not on its own. *)
Lemma pair_adjacent_pairs (n : nat) :
  forall rows, length rows <= n -> rows_ok rows ->
    forall l o,
      In l rows -> is_lift l = true ->
      In o rows -> is_origin o = true -> key o = key l ->
      In (o ++ slice 4 8 l) (pair_adjacent rows)
      /\ ~ In (l ++ NA4) (pair_adjacent rows).
Proof.
  induction n as [|n IH]; intros rows Hlen H l o Hl Hlift Ho Horigin Hk.
  { destruct rows; [destruct Hl | simpl in Hlen; lia]. }
  assert (Hge := rows_ok_ge4 rows H).
  assert (Hl4 : 4 <= length l).
  { unfold is_lift in Hlift. apply Nat.eqb_eq in Hlift. lia. }
  destruct rows as [|a [|b rest]]; [destruct Hl| |].
  - destruct Hl as [<-|[]]. destruct Ho as [<-|[]].
    rewrite (lift_not_origin _ Hlift) in Horigin. discriminate.
  - inversion Hge as [|? ? [_ La] Hge']; subst.
    inversion Hge' as [|? ? [_ Lb] _]; subst.
    assert (Htl := rows_ok_tail a _ H).
    assert (Hrest := rows_ok_tail b _ Htl).
    rewrite pair_adjacent_cons2.
    destruct (tokens_eqb (key a) (key b)) eqn:Hab.
    + apply tokens_eqb_eq in Hab.
      destruct (rows_ok_pair_head a b rest H Hab) as [Hkinds Hfresh].
      destruct (list_eq_dec string_dec (key l) (key a)) as [Hla|Hla].
      * (* the pair at the head is the pair of [l] *)
        assert (Hl_head : l = a \/ l = b).
        { destruct Hl as [<-|[<-|Hl]]; auto.
          exfalso. apply (Hfresh l Hl Hla). }
        assert (Ho_head : o = a \/ o = b).
        { destruct Ho as [<-|[<-|Ho]]; auto.
          exfalso. apply (Hfresh o Ho). congruence. }
        assert (Hpaired : paired a b = o ++ slice 4 8 l).
        { unfold paired. unfold is_origin, is_lift in Hkinds.
          destruct Hkinds as [[Ha Hb]|[Ha Hb]];
            apply Nat.eqb_eq in Ha, Hb; rewrite Ha, Hb; simpl.
          - assert (l = b).
            { destruct Hl_head as [-> | ->]; [|reflexivity].
              unfold is_lift in Hlift. apply Nat.eqb_eq in Hlift. lia. }
            assert (o = a).
            { destruct Ho_head as [-> | ->]; [reflexivity|].
              unfold is_origin in Horigin. apply Nat.eqb_eq in Horigin. lia. }
            subst. reflexivity.
          - assert (l = a).
            { destruct Hl_head as [-> | ->]; [reflexivity|].
              unfold is_lift in Hlift. apply Nat.eqb_eq in Hlift. lia. }
            assert (o = b).
            { destruct Ho_head as [-> | ->]; [|reflexivity].
              unfold is_origin in Horigin. apply Nat.eqb_eq in Horigin. lia. }
            subst. reflexivity. }
        split; [left; exact Hpaired|].
        intros [E|Hin].
        -- rewrite Hpaired, (slice_lift l Hlift) in E.
           apply (f_equal (@length string)) in E.
           rewrite !length_app in E. change (length NA4) with 4 in E.
           unfold is_origin in Horigin. unfold is_lift in Hlift.
           apply Nat.eqb_eq in Horigin, Hlift. simpl in E. lia.
        -- apply (pair_adjacent_fresh rest (key a) Hrest Hfresh _ Hin).
           rewrite key_app_ge4 by assumption. exact Hla.
      * (* the pair of [l] is further on *)
        assert (Hl' : In l rest).
        { destruct Hl as [<-|[<-|Hl]]; [congruence | congruence | assumption]. }
        assert (Ho' : In o rest).
        { destruct Ho as [<-|[<-|Ho]]; [congruence | congruence | assumption]. }
        destruct (IH rest) with (l := l) (o := o) as [Hp Hn];
          try assumption; [simpl in Hlen; lia|].
        split; [right; exact Hp|].
        intros [E|Hin]; [|exact (Hn Hin)].
        apply Hla. rewrite <- (key_app_ge4 l NA4 Hl4), <- E.
        apply (paired_key a b La Lb Hab).
    + apply tokens_eqb_neq in Hab.
      assert (Hfresh := rows_ok_fresh_head a b rest H Hab).
      assert (Hla : key l <> key a).
      { intros E.
        destruct Hl as [<-|Hl]; [|exact (Hfresh l Hl E)].
        destruct Ho as [<-|Ho].
        - rewrite (lift_not_origin _ Hlift) in Horigin. discriminate.
        - apply (Hfresh o Ho). exact Hk. }
      assert (Hl' : In l (b :: rest)).
      { destruct Hl as [<-|Hl]; [congruence | assumption]. }
      assert (Ho' : In o (b :: rest)).
      { destruct Ho as [<-|Ho]; [congruence | assumption]. }
      destruct (IH (b :: rest)) with (l := l) (o := o) as [Hp Hn];
        try assumption; [simpl in Hlen |- *; lia|].
      split; [right; exact Hp|].
      intros [E|Hin]; [|exact (Hn Hin)].
      apply Hla. rewrite <- (key_app_ge4 l NA4 Hl4), <- E.
      apply (key_app_ge4 a NA4 La).
Qed.

(** Counting printed lines by key is counting printed rows by key. *)
Lemma count_key_lines (k : list string) (ps : list row) :
  Forall (fun p => p <> [] /\ forallb (no_char tab) p = true) ps ->
  count_key k (map (join tab) ps)
  = length (filter (fun p => tokens_eqb (key p) k) ps).
Proof.
  unfold count_key. induction 1 as [|p ps [Hne Htab] _ IH]; [reflexivity|].
  cbn [map filter]. rewrite (split_join tab p Hne Htab).
  destruct (tokens_eqb (key p) k); cbn [length]; rewrite IH; reflexivity.
Qed.

End LooseStream.

Lemma orphan_rows_ok : rows_ok [Sample.origin_padded; Sample.lift_plus].
Proof.
  unfold rows_ok. split; [|split; [|split]].
  - apply Forall_forall. intros r [<-|[<-|[]]];
      (split; [reflexivity | (left; reflexivity) || (right; reflexivity)]).
  - repeat constructor; simpl; intuition discriminate.
  - repeat constructor; simpl; intuition discriminate.
  - reflexivity.
Qed.

(** C1, as amended.  In the sorted stream let the rows have eight fields
    (origin rows) or nine (lift rows), let the origin rows have pairwise
    distinct 4-field keys, let at most one lift row bear each key, and let
    rows of equal key be adjacent.  Then the emitter finishes and, for
    every origin row, prints exactly one line whose first four fields are
    that row's key: no junction is dropped and none is duplicated, paired
    or not, at the end of the stream or before.  When, besides, every lift
    row bears the key of an origin row and the stream has at least two
    rows, one line per origin row is all that is printed. *)
Theorem one_output_row_per_junction (rows : list row) (o : row) :
  Forall (fun r => clean_row r = true
                   /\ (is_origin r = true \/ is_lift r = true)) rows ->
  NoDup (map key (filter is_origin rows)) ->
  NoDup (map key (filter is_lift rows)) ->
  contiguous (map key rows) = true ->
  In o rows -> is_origin o = true ->
  exists out,
    Emitter.merge_join (lines_of rows) = Some out
    /\ count_key (key o) out = 1
    /\ ((forall l, In l rows -> is_lift l = true ->
           exists o', In o' rows /\ is_origin o' = true /\ key o' = key l) ->
        2 <= length rows ->
        length out = length (filter is_origin rows)).
Proof.
  intros Hs Hno Hnl Hc Hin Ho.
  assert (H : rows_ok rows) by (unfold rows_ok; auto).
  assert (Hclean : Forall (fun r => clean_row r = true) rows).
  { eapply Forall_impl; [|exact Hs]. simpl. tauto. }
  assert (Hoc : clean_row o = true).
  { rewrite Forall_forall in Hclean. auto. }
  rewrite (merge_join_lines rows Hclean). eexists. split; [reflexivity|].
  destruct (pair_adjacent_keys (length rows) rows (le_n _) (rows_ok_ge4 rows H))
    as [Hprinted _].
  split.
  - rewrite count_key_app, (count_key_lines _ _ Hprinted).
    rewrite (pair_adjacent_one (length rows) rows (le_n _) H o Hin Ho).
    rewrite count_key_none; [reflexivity|].
    intros line Hl. apply (stray_key rows o line Hoc Ho Hl).
  - intros Hlo Hlen.
    assert (Hok : stream_ok rows) by (constructor; assumption).
    rewrite (pair_adjacent_stream_ok rows Hok), length_app, !length_map.
    destruct rows as [|a [|b rows]]; simpl in Hlen; try lia.
    simpl stray_lines. simpl length at 2. lia.
Qed.

Lemma one_output_row_per_junction_witness :
  rows_ok [Sample.origin_padded; Sample.lift_plus]
  /\ exists out,
       Emitter.merge_join (lines_of [Sample.origin_padded; Sample.lift_plus])
       = Some out
       /\ count_key (key Sample.origin_padded) out = 1
       /\ ((forall l, In l [Sample.origin_padded; Sample.lift_plus] ->
              is_lift l = true ->
              exists o', In o' [Sample.origin_padded; Sample.lift_plus]
                         /\ is_origin o' = true /\ key o' = key l) ->
           2 <= length [Sample.origin_padded; Sample.lift_plus] ->
           length out
           = length (filter is_origin [Sample.origin_padded; Sample.lift_plus])).
Proof.
  split; [exact orphan_rows_ok|].
  destruct orphan_rows_ok as (Hs & Hno & Hnl & Hc).
  apply (one_output_row_per_junction
           [Sample.origin_padded; Sample.lift_plus] Sample.origin_padded
           Hs Hno Hnl Hc).
  - simpl; auto.
  - reflexivity.
Defined.

(** C6, as amended.  In the sorted stream let the rows have eight fields
    (origin rows) or nine (lift rows), let the origin rows have pairwise
    distinct 4-field keys, let at most one lift row bear each key, and let
    rows with the same 4-field key (chrom, start, end, strand) be adjacent.
    Then every lift row that bears the key of an origin row of the stream
    is paired with that origin row: the line made of the origin row and
    the lift row's fields 5-8 is printed, and no line is printed for the
    lift row on its own. *)
Theorem lift_rows_paired (rows : list row) (l o : row) :
  Forall (fun r => clean_row r = true
                   /\ (is_origin r = true \/ is_lift r = true)) rows ->
  NoDup (map key (filter is_origin rows)) ->
  NoDup (map key (filter is_lift rows)) ->
  contiguous (map key rows) = true ->
  In l rows -> is_lift l = true ->
  In o rows -> is_origin o = true -> key o = key l ->
  exists out,
    Emitter.merge_join (lines_of rows) = Some out
    /\ In (join tab (o ++ slice 4 8 l)) out
    /\ ~ In (join tab (l ++ Emitter.NA4)) out.
Proof.
  intros Hs Hno Hnl Hc Hl Hlift Ho Horigin Hk.
  assert (H : rows_ok rows) by (unfold rows_ok; auto).
  assert (Hclean : Forall (fun r => clean_row r = true) rows).
  { eapply Forall_impl; [|exact Hs]. simpl. tauto. }
  rewrite (merge_join_lines rows Hclean).
  assert (Hstray : stray_lines rows = []).
  { destruct rows as [|a [|b rows]]; [destruct Hl| |reflexivity].
    destruct Hl as [<-|[]]. destruct Ho as [<-|[]].
    rewrite (lift_not_origin _ Hlift) in Horigin. discriminate. }
  rewrite Hstray, app_nil_r. eexists. split; [reflexivity|].
  destruct (pair_adjacent_pairs (length rows) rows (le_n _) H l o
              Hl Hlift Ho Horigin Hk) as [Hp Hn].
  split; [apply (in_map (join tab)), Hp|].
  intros Hbad. apply in_map_iff in Hbad. destruct Hbad as (p & E & Hpin).
  destruct (pair_adjacent_keys (length rows) rows (le_n _) (rows_ok_ge4 rows H))
    as [Hprinted _].
  rewrite Forall_forall in Hprinted. destruct (Hprinted p Hpin) as [Hne Htab].
  assert (Hlc : clean_row l = true).
  { rewrite Forall_forall in Hclean. auto. }
  apply Hn. rewrite <- (join_inj tab p (l ++ Emitter.NA4)); auto.
  - destruct l; discriminate.
  - rewrite forallb_app, (clean_no_tab l Hlc). reflexivity.
Qed.

Lemma lift_rows_paired_witness :
  stream_ok Sample.sorted_rows
  /\ exists out,
       Emitter.merge_join (lines_of Sample.sorted_rows) = Some out
       /\ In (join tab (Sample.origin_plus ++ slice 4 8 Sample.lift_plus)) out
       /\ ~ In (join tab (Sample.lift_plus ++ Emitter.NA4)) out.
Proof.
  split; [exact sorted_rows_ok|].
  destruct (stream_ok_rows_ok _ sorted_rows_ok) as (Hs & Hno & Hnl & Hc).
  apply (lift_rows_paired Sample.sorted_rows Sample.lift_plus Sample.origin_plus
           Hs Hno Hnl Hc).
  - simpl; auto.
  - reflexivity.
  - simpl; auto.
  - reflexivity.
  - reflexivity.
Defined.
